(** * A discrete-time PID controller (mbed port of the Arduino PID library)

    Shallow embedding of [PID.h] / [PID.cpp] and the properties of the
    controller that its specification states.

    The class is embedded twice, with the same control flow.

    - Over exact rationals ([Q]), for what the methods do as
      arithmetic: which members a method assigns, with which operation,
      under which test.  Source division is [Qdiv]; the quotients the
      source takes are by [_inSpan], [_outSpan] and [_tSample], and
      section [Divisors] shows when these are nonzero.  Equations
      between computed numbers are stated up to [==] ([Qeq]), equations
      between stored arguments and untouched fields with [=].

    - Over IEEE 754 binary32 ([Binary32]), bit for bit, for what
      depends on the numbers the machine computes: rounding, division by
      zero and NaN.

    State.  The class is a record with one field per data member, under
    the member's own name; each method is a function from the state
    before the call to the state after it, written as the same sequence
    of assignments. *)

From Stdlib Require Import QArith ZArith Bool Lia Lqa SpecFloat.

Local Open Scope Q_scope.

(** ** Comparisons of the source, as boolean tests *)

Definition Qltb (x y : Q) : bool := negb (Qle_bool y x).
Definition Qgtb (x y : Q) : bool := Qltb y x.
Definition Qleb (x y : Q) : bool := Qle_bool x y.
Definition Qgeb (x y : Q) : bool := Qle_bool y x.

(** [#define constrain(value, low, high)
      ((value < low) ? low : ((value > high) ? high : value))] *)
Definition constrain (value low high : Q) : Q :=
  if Qltb value low then low
  else if Qgtb value high then high
  else value.

(** ** The controller state: the data members of [class PID] *)

Record PID : Type := mkPID {
  _usingFeedForward : bool;
  _inAuto : bool;
  (* Actual tuning parameters used in PID calculation. *)
  _Kc : Q;
  _tauR : Q;
  _tauD : Q;
  (* Raw tuning parameters. *)
  _pParam : Q;
  _iParam : Q;
  _dParam : Q;
  (* The point we want to reach. *)
  _setPoint : Q;
  (* The thing we measure. *)
  _processVariable : Q;
  _prevProcessVariable : Q;
  (* The output that affects the process variable. *)
  _controllerOutput : Q;
  _prevControllerOutput : Q;
  (* Scaling from real world values to 0-100% and back again. *)
  _inMin : Q;
  _inMax : Q;
  _inSpan : Q;
  _outMin : Q;
  _outMax : Q;
  _outSpan : Q;
  (* The accumulated error, i.e. integral. *)
  _accError : Q;
  (* The controller output bias. *)
  _bias : Q;
  (* The interval between samples. *)
  _tSample : Q;
  (* Controller output as a real world value. *)
  _realOutput : Q
}.

(** Assignment to one member: [set_x v s] is [s] after [_x = v;]. *)

Definition set_usingFeedForward (v : bool) (s : PID) : PID :=
  let 'mkPID _ b c d e f g h i j k l m n o p q r t u w x y := s in
  mkPID v b c d e f g h i j k l m n o p q r t u w x y.
Definition set_inAuto (v : bool) (s : PID) : PID :=
  let 'mkPID a _ c d e f g h i j k l m n o p q r t u w x y := s in
  mkPID a v c d e f g h i j k l m n o p q r t u w x y.
Definition set_Kc (v : Q) (s : PID) : PID :=
  let 'mkPID a b _ d e f g h i j k l m n o p q r t u w x y := s in
  mkPID a b v d e f g h i j k l m n o p q r t u w x y.
Definition set_tauR (v : Q) (s : PID) : PID :=
  let 'mkPID a b c _ e f g h i j k l m n o p q r t u w x y := s in
  mkPID a b c v e f g h i j k l m n o p q r t u w x y.
Definition set_tauD (v : Q) (s : PID) : PID :=
  let 'mkPID a b c d _ f g h i j k l m n o p q r t u w x y := s in
  mkPID a b c d v f g h i j k l m n o p q r t u w x y.
Definition set_pParam (v : Q) (s : PID) : PID :=
  let 'mkPID a b c d e _ g h i j k l m n o p q r t u w x y := s in
  mkPID a b c d e v g h i j k l m n o p q r t u w x y.
Definition set_iParam (v : Q) (s : PID) : PID :=
  let 'mkPID a b c d e f _ h i j k l m n o p q r t u w x y := s in
  mkPID a b c d e f v h i j k l m n o p q r t u w x y.
Definition set_dParam (v : Q) (s : PID) : PID :=
  let 'mkPID a b c d e f g _ i j k l m n o p q r t u w x y := s in
  mkPID a b c d e f g v i j k l m n o p q r t u w x y.
Definition set_setPoint (v : Q) (s : PID) : PID :=
  let 'mkPID a b c d e f g h _ j k l m n o p q r t u w x y := s in
  mkPID a b c d e f g h v j k l m n o p q r t u w x y.
Definition set_processVariable (v : Q) (s : PID) : PID :=
  let 'mkPID a b c d e f g h i _ k l m n o p q r t u w x y := s in
  mkPID a b c d e f g h i v k l m n o p q r t u w x y.
Definition set_prevProcessVariable (v : Q) (s : PID) : PID :=
  let 'mkPID a b c d e f g h i j _ l m n o p q r t u w x y := s in
  mkPID a b c d e f g h i j v l m n o p q r t u w x y.
Definition set_controllerOutput (v : Q) (s : PID) : PID :=
  let 'mkPID a b c d e f g h i j k _ m n o p q r t u w x y := s in
  mkPID a b c d e f g h i j k v m n o p q r t u w x y.
Definition set_prevControllerOutput (v : Q) (s : PID) : PID :=
  let 'mkPID a b c d e f g h i j k l _ n o p q r t u w x y := s in
  mkPID a b c d e f g h i j k l v n o p q r t u w x y.
Definition set_inMin (v : Q) (s : PID) : PID :=
  let 'mkPID a b c d e f g h i j k l m _ o p q r t u w x y := s in
  mkPID a b c d e f g h i j k l m v o p q r t u w x y.
Definition set_inMax (v : Q) (s : PID) : PID :=
  let 'mkPID a b c d e f g h i j k l m n _ p q r t u w x y := s in
  mkPID a b c d e f g h i j k l m n v p q r t u w x y.
Definition set_inSpan (v : Q) (s : PID) : PID :=
  let 'mkPID a b c d e f g h i j k l m n o _ q r t u w x y := s in
  mkPID a b c d e f g h i j k l m n o v q r t u w x y.
Definition set_outMin (v : Q) (s : PID) : PID :=
  let 'mkPID a b c d e f g h i j k l m n o p _ r t u w x y := s in
  mkPID a b c d e f g h i j k l m n o p v r t u w x y.
Definition set_outMax (v : Q) (s : PID) : PID :=
  let 'mkPID a b c d e f g h i j k l m n o p q _ t u w x y := s in
  mkPID a b c d e f g h i j k l m n o p q v t u w x y.
Definition set_outSpan (v : Q) (s : PID) : PID :=
  let 'mkPID a b c d e f g h i j k l m n o p q r _ u w x y := s in
  mkPID a b c d e f g h i j k l m n o p q r v u w x y.
Definition set_accError (v : Q) (s : PID) : PID :=
  let 'mkPID a b c d e f g h i j k l m n o p q r t _ w x y := s in
  mkPID a b c d e f g h i j k l m n o p q r t v w x y.
Definition set_bias (v : Q) (s : PID) : PID :=
  let 'mkPID a b c d e f g h i j k l m n o p q r t u _ x y := s in
  mkPID a b c d e f g h i j k l m n o p q r t u v x y.
Definition set_tSample (v : Q) (s : PID) : PID :=
  let 'mkPID a b c d e f g h i j k l m n o p q r t u w _ y := s in
  mkPID a b c d e f g h i j k l m n o p q r t u w v y.
Definition set_realOutput (v : Q) (s : PID) : PID :=
  let 'mkPID a b c d e f g h i j k l m n o p q r t u w x _ := s in
  mkPID a b c d e f g h i j k l m n o p q r t u w x v.

(** ** The methods of [class PID] *)

(** [void PID::setInputLimits(float inMin, float inMax)] *)
Definition setInputLimits (inMin inMax : Q) (s : PID) : PID :=
  (* Make sure we haven't been given impossible values. *)
  if Qgeb inMin inMax then s
  else
    (* Rescale the working variables to reflect the changes. *)
    let s := set_prevProcessVariable
               (_prevProcessVariable s * ((inMax - inMin) / _inSpan s)) s in
    let s := set_accError (_accError s * ((inMax - inMin) / _inSpan s)) s in
    (* Make sure the working variables are within the new limits. *)
    let s := set_prevProcessVariable
               (constrain (_prevProcessVariable s) 0 1) s in
    let s := set_inMin inMin s in
    let s := set_inMax inMax s in
    set_inSpan (inMax - inMin) s.

(** [void PID::setOutputLimits(float outMin, float outMax)] *)
Definition setOutputLimits (outMin outMax : Q) (s : PID) : PID :=
  if Qgeb outMin outMax then s
  else
    let s := set_prevControllerOutput
               (_prevControllerOutput s * ((outMax - outMin) / _outSpan s)) s in
    let s := set_prevControllerOutput
               (constrain (_prevControllerOutput s) 0 1) s in
    let s := set_outMin outMin s in
    let s := set_outMax outMax s in
    set_outSpan (outMax - outMin) s.

(** [void PID::setTunings(float Kc, float tauI, float tauD)] *)
Definition setTunings (Kc tauI tauD : Q) (s : PID) : PID :=
  (* Verify that the tunings make sense. *)
  if Qeq_bool Kc 0 || Qltb tauI 0 || Qltb tauD 0 then s
  else
    (* Store raw values to hand back to user on request. *)
    let s := set_pParam Kc s in
    let s := set_iParam tauI s in
    let s := set_dParam tauD s in
    let tempTauR :=
      if Qeq_bool tauI 0 then 0 else (1 / tauI) * _tSample s in
    (* For "bumpless transfer" we need to rescale the accumulated error. *)
    let s :=
      if _inAuto s then
        if Qeq_bool tempTauR 0 then set_accError 0 s
        else set_accError
               (_accError s * ((_Kc s * _tauR s) / (Kc * tempTauR))) s
      else s in
    let s := set_Kc Kc s in
    let s := set_tauR tempTauR s in
    set_tauD (tauD / _tSample s) s.

(** [void PID::reset(void)] *)
Definition reset (s : PID) : PID :=
  let scaledBias :=
    if _usingFeedForward s then (_bias s - _outMin s) / _outSpan s
    else (_realOutput s - _outMin s) / _outSpan s in
  let s := set_prevControllerOutput scaledBias s in
  let s := set_prevProcessVariable
             ((_processVariable s - _inMin s) / _inSpan s) s in
  (* Clear any error in the integral. *)
  set_accError 0 s.

(** [void PID::setMode(int mode)] *)
Definition setMode (mode : Z) (s : PID) : PID :=
  (* We were in manual, and we just got set to auto.
     Reset the controller internals. *)
  let s := if negb (mode =? 0)%Z && negb (_inAuto s) then reset s else s in
  set_inAuto (negb (mode =? 0)%Z) s.

(** [void PID::setInterval(float interval)] *)
Definition setInterval (interval : Q) (s : PID) : PID :=
  if Qgtb interval 0 then
    (* Convert the time-based tunings to reflect this change. *)
    let s := set_tauR (_tauR s * (interval / _tSample s)) s in
    let s := set_accError (_accError s * (_tSample s / interval)) s in
    let s := set_tauD (_tauD s * (interval / _tSample s)) s in
    set_tSample interval s
  else s.

(** [void PID::setSetPoint(float sp)] *)
Definition setSetPoint (sp : Q) (s : PID) : PID := set_setPoint sp s.

(** [float PID::getSetPoint()] *)
Definition getSetPoint (s : PID) : Q := _setPoint s.

(** [void PID::setProcessValue(float pv)] *)
Definition setProcessValue (pv : Q) (s : PID) : PID :=
  set_processVariable pv s.

(** [void PID::setBias(float bias)] *)
Definition setBias (bias : Q) (s : PID) : PID :=
  let s := set_bias bias s in
  set_usingFeedForward true s.

(** The error of one sample, as [compute] forms it: scaled setpoint
    minus scaled process variable, both constrained to [0,1]. *)
Definition scaledPV (s : PID) : Q :=
  constrain ((_processVariable s - _inMin s) / _inSpan s) 0 1.

Definition scaledSP (s : PID) : Q :=
  constrain ((_setPoint s - _inMin s) / _inSpan s) 0 1.

Definition error (s : PID) : Q := scaledSP s - scaledPV s.

(** [float PID::compute()]: the state after the call and the value
    returned. *)
Definition compute (s : PID) : PID * Q :=
  (* Pull in the input and setpoint, and scale them into percent span. *)
  let scaledPV := (_processVariable s - _inMin s) / _inSpan s in
  let scaledPV := constrain scaledPV 0 1 in
  let scaledSP := (_setPoint s - _inMin s) / _inSpan s in
  let scaledSP := constrain scaledSP 0 1 in
  let error := scaledSP - scaledPV in
  (* Check and see if the output is pegged at a limit and only
     integrate if it is not. This is to prevent reset-windup. *)
  let s :=
    if negb (Qgeb (_prevControllerOutput s) 1 && Qgtb error 0)
       && negb (Qleb (_prevControllerOutput s) 0 && Qltb error 0)
    then set_accError (_accError s + error) s
    else s in
  (* Compute the current slope of the input signal. *)
  let dMeas := (scaledPV - _prevProcessVariable s) / _tSample s in
  let scaledBias :=
    if _usingFeedForward s then (_bias s - _outMin s) / _outSpan s
    else 0 in
  (* Perform the PID calculation. *)
  let s := set_controllerOutput
             (scaledBias
              + _Kc s * (error + (_tauR s * _accError s) - (_tauD s * dMeas)))
             s in
  (* Make sure the computed output is within output constraints. *)
  let s := set_controllerOutput (constrain (_controllerOutput s) 0 1) s in
  (* Remember this output for the windup check next time. *)
  let s := set_prevControllerOutput (_controllerOutput s) s in
  (* Remember the input for the derivative calculation next time. *)
  let s := set_prevProcessVariable scaledPV s in
  (* Scale the output from percent span back out to a real world number. *)
  (s, (_controllerOutput s * _outSpan s) + _outMin s).

(** [PID::PID(float Kc, float tauI, float tauD, float interval)].
    The constructor body starts from the object's storage as it happens
    to be ([raw]): the two limit setters and [setTunings] read members
    that have not been assigned yet. *)
Definition PID_ctor (raw : PID) (Kc tauI tauD interval : Q) : PID :=
  let s := set_usingFeedForward false raw in
  let s := set_inAuto false s in
  (* Default the limits to the full range of I/O: 3.3V *)
  let s := setInputLimits 0 3.3 s in
  let s := setOutputLimits 0 3.3 s in
  let s := set_tSample interval s in
  let s := setTunings Kc tauI tauD s in
  let s := set_setPoint 0 s in
  let s := set_processVariable 0 s in
  let s := set_prevProcessVariable 0 s in
  let s := set_controllerOutput 0 s in
  let s := set_prevControllerOutput 0 s in
  let s := set_accError 0 s in
  let s := set_bias 0 s in
  set_realOutput 0 s.

(** ** Runs of the controller *)

(** One call of a public method. *)
Inductive op : Type :=
| OpSetInputLimits (inMin inMax : Q)
| OpSetOutputLimits (outMin outMax : Q)
| OpSetTunings (Kc tauI tauD : Q)
| OpReset
| OpSetMode (mode : Z)
| OpSetInterval (interval : Q)
| OpSetSetPoint (sp : Q)
| OpSetProcessValue (pv : Q)
| OpSetBias (bias : Q)
| OpCompute.

Definition run (o : op) (s : PID) : PID :=
  match o with
  | OpSetInputLimits inMin inMax => setInputLimits inMin inMax s
  | OpSetOutputLimits outMin outMax => setOutputLimits outMin outMax s
  | OpSetTunings Kc tauI tauD => setTunings Kc tauI tauD s
  | OpReset => reset s
  | OpSetMode mode => setMode mode s
  | OpSetInterval interval => setInterval interval s
  | OpSetSetPoint sp => setSetPoint sp s
  | OpSetProcessValue pv => setProcessValue pv s
  | OpSetBias bias => setBias bias s
  | OpCompute => fst (compute s)
  end.

Fixpoint runs (os : list op) (s : PID) : PID :=
  match os with
  | nil => s
  | cons o os' => runs os' (run o s)
  end.

(** The states a program can observe: a constructed controller, and
    whatever method calls make of it. *)
Inductive reachable : PID -> Prop :=
| reach_ctor (raw : PID) (Kc tauI tauD interval : Q) :
    reachable (PID_ctor raw Kc tauI tauD interval)
| reach_step (o : op) (s : PID) :
    reachable s -> reachable (run o s).

(** The mode switch of [setMode] that goes through [reset]. *)
Definition resets (o : op) (s : PID) : bool :=
  match o with
  | OpReset => true
  | OpSetMode mode => negb (mode =? 0)%Z && negb (_inAuto s)
  | _ => false
  end.

Definition in_unit (x : Q) : Prop := 0 <= x /\ x <= 1.

(** [s'] differs from [s] at most in the automatic-mode flag. *)
Definition same_except_inAuto (s s' : PID) : Prop :=
  _usingFeedForward s' = _usingFeedForward s /\
  _Kc s' = _Kc s /\ _tauR s' = _tauR s /\ _tauD s' = _tauD s /\
  _pParam s' = _pParam s /\ _iParam s' = _iParam s /\
  _dParam s' = _dParam s /\
  _setPoint s' = _setPoint s /\
  _processVariable s' = _processVariable s /\
  _prevProcessVariable s' = _prevProcessVariable s /\
  _controllerOutput s' = _controllerOutput s /\
  _prevControllerOutput s' = _prevControllerOutput s /\
  _inMin s' = _inMin s /\ _inMax s' = _inMax s /\ _inSpan s' = _inSpan s /\
  _outMin s' = _outMin s /\ _outMax s' = _outMax s /\
  _outSpan s' = _outSpan s /\
  _accError s' = _accError s /\ _bias s' = _bias s /\
  _tSample s' = _tSample s /\ _realOutput s' = _realOutput s.

(** The limits as the setters leave them: a nonempty range and its
    width. *)
Definition limits_ok (s : PID) : Prop :=
  _inMin s < _inMax s /\ _inSpan s = _inMax s - _inMin s /\
  _outMin s < _outMax s /\ _outSpan s = _outMax s - _outMin s.

(** The previous output is pegged at a limit and the error pushes
    further into it. *)
Definition pegged (s : PID) : Prop :=
  (1 <= _prevControllerOutput s /\ 0 < error s) \/
  (_prevControllerOutput s <= 0 /\ error s < 0).

(** The stored quantities in scaled units. *)
Definition scaled_in_unit (s : PID) : Prop :=
  in_unit (_prevProcessVariable s) /\ in_unit (_controllerOutput s) /\
  in_unit (_prevControllerOutput s) /\ in_unit (_accError s).


Definition dMeas (s : PID) : Q :=
  (scaledPV s - _prevProcessVariable s) / _tSample s.

Definition scaledBias (s : PID) : Q :=
  if _usingFeedForward s then (_bias s - _outMin s) / _outSpan s else 0.


(** Calls that assign the setpoint. *)
Definition assigns_setPoint (o : op) : bool :=
  match o with
  | OpSetSetPoint _ => true
  | _ => false
  end.

(** A storage content to start concrete runs from. *)
Definition raw0 : PID :=
  mkPID true true 7 7 7 7 7 7 7 7 7 7 7 7 7 7 7 7 7 7 7 7 7.

(** The scenario of the specification:
    [PID(2.0, 5.0, 1.0, 1.0)], [setSetPoint(1.65)],
    [setProcessValue(0.0)], [setMode(AUTO_MODE)]. *)
Definition AUTO_MODE : Z := 1.
Definition MANUAL_MODE : Z := 0.

Definition scenario (raw : PID) : PID :=
  setMode AUTO_MODE
    (setProcessValue 0 (setSetPoint 1.65 (PID_ctor raw 2 5 1 1))).

(** A freshly constructed controller, and the scenario's controller
    after its first sample. *)
Definition fresh : PID := PID_ctor raw0 2 5 1 1.

Definition sampled : PID := fst (compute (scenario raw0)).

(** * The same class over IEEE 754 arithmetic

    The members are binary32 values and every operation of the source
    is the correctly rounded (round to nearest, ties to even) operation
    of its type, evaluated one at a time: [float] operands give a
    binary32 operation, a [double] literal among the operands gives a
    binary64 operation whose result is rounded again when it is stored
    in a [float].  Division by zero, overflow and NaN are those of the
    standard. *)

Module Binary32.

Definition float : Type := spec_float.
Definition double : Type := spec_float.

(** Conversions: [float] to [double] is exact, [double] to [float]
    rounds. *)
Definition to_double (x : float) : double :=
  match x with
  | S754_finite s m e => binary_normalize 53 1024 (cond_Zopp s (Zpos m)) e s
  | _ => x
  end.

Definition to_float (x : double) : float :=
  match x with
  | S754_finite s m e => binary_normalize 24 128 (cond_Zopp s (Zpos m)) e s
  | _ => x
  end.

(** The [double] nearest to the decimal literal [n/d] ([n] and [d]
    integers a [double] holds exactly), and the [float] a parameter of
    type [float] receives from it. *)
Definition dbl (n d : Z) : double :=
  SFdiv 53 1024 (binary_normalize 53 1024 n 0 false)
                (binary_normalize 53 1024 d 0 false).

Definition lit (n d : Z) : float := to_float (dbl n d).

(** [0.0], [0] and [1.0], [1] as [float]. *)
Definition zero : float := S754_zero false.
Definition one : float := S754_finite false 8388608 (-23).

Declare Scope f32_scope.
Delimit Scope f32_scope with f32.
Notation "x + y" := (SFadd 24 128 x y) : f32_scope.
Notation "x - y" := (SFsub 24 128 x y) : f32_scope.
Notation "x * y" := (SFmul 24 128 x y) : f32_scope.
Notation "x / y" := (SFdiv 24 128 x y) : f32_scope.
Notation "x <? y" := (SFltb x y) : f32_scope.
Notation "x >? y" := (SFltb y x) : f32_scope.
Notation "x <=? y" := (SFleb x y) : f32_scope.
Notation "x >=? y" := (SFleb y x) : f32_scope.
Notation "x =? y" := (SFeqb x y) : f32_scope.

Local Open Scope f32_scope.

(** [#define constrain(value, low, high)
      ((value < low) ? low : ((value > high) ? high : value))].
    At its four uses [low] and [high] are the [double] literals [0.0]
    and [1.0]: the comparisons promote [value] exactly, and the result
    is [low], [high] or [value] itself, stored back exactly. *)
Definition constrain (value low high : float) : float :=
  if value <? low then low
  else if value >? high then high
  else value.

Record PID : Type := mkPID {
  _usingFeedForward : bool;
  _inAuto : bool;
  _Kc : float;
  _tauR : float;
  _tauD : float;
  _pParam : float;
  _iParam : float;
  _dParam : float;
  _setPoint : float;
  _processVariable : float;
  _prevProcessVariable : float;
  _controllerOutput : float;
  _prevControllerOutput : float;
  _inMin : float;
  _inMax : float;
  _inSpan : float;
  _outMin : float;
  _outMax : float;
  _outSpan : float;
  _accError : float;
  _bias : float;
  _tSample : float;
  _realOutput : float
}.

(** Assignment to one member. *)

Definition set_usingFeedForward (v : bool) (s : PID) : PID :=
  let 'mkPID _ b c d e f g h i j k l m n o p q r t u w x y := s in
  mkPID v b c d e f g h i j k l m n o p q r t u w x y.
Definition set_inAuto (v : bool) (s : PID) : PID :=
  let 'mkPID a _ c d e f g h i j k l m n o p q r t u w x y := s in
  mkPID a v c d e f g h i j k l m n o p q r t u w x y.
Definition set_Kc (v : float) (s : PID) : PID :=
  let 'mkPID a b _ d e f g h i j k l m n o p q r t u w x y := s in
  mkPID a b v d e f g h i j k l m n o p q r t u w x y.
Definition set_tauR (v : float) (s : PID) : PID :=
  let 'mkPID a b c _ e f g h i j k l m n o p q r t u w x y := s in
  mkPID a b c v e f g h i j k l m n o p q r t u w x y.
Definition set_tauD (v : float) (s : PID) : PID :=
  let 'mkPID a b c d _ f g h i j k l m n o p q r t u w x y := s in
  mkPID a b c d v f g h i j k l m n o p q r t u w x y.
Definition set_pParam (v : float) (s : PID) : PID :=
  let 'mkPID a b c d e _ g h i j k l m n o p q r t u w x y := s in
  mkPID a b c d e v g h i j k l m n o p q r t u w x y.
Definition set_iParam (v : float) (s : PID) : PID :=
  let 'mkPID a b c d e f _ h i j k l m n o p q r t u w x y := s in
  mkPID a b c d e f v h i j k l m n o p q r t u w x y.
Definition set_dParam (v : float) (s : PID) : PID :=
  let 'mkPID a b c d e f g _ i j k l m n o p q r t u w x y := s in
  mkPID a b c d e f g v i j k l m n o p q r t u w x y.
Definition set_setPoint (v : float) (s : PID) : PID :=
  let 'mkPID a b c d e f g h _ j k l m n o p q r t u w x y := s in
  mkPID a b c d e f g h v j k l m n o p q r t u w x y.
Definition set_processVariable (v : float) (s : PID) : PID :=
  let 'mkPID a b c d e f g h i _ k l m n o p q r t u w x y := s in
  mkPID a b c d e f g h i v k l m n o p q r t u w x y.
Definition set_prevProcessVariable (v : float) (s : PID) : PID :=
  let 'mkPID a b c d e f g h i j _ l m n o p q r t u w x y := s in
  mkPID a b c d e f g h i j v l m n o p q r t u w x y.
Definition set_controllerOutput (v : float) (s : PID) : PID :=
  let 'mkPID a b c d e f g h i j k _ m n o p q r t u w x y := s in
  mkPID a b c d e f g h i j k v m n o p q r t u w x y.
Definition set_prevControllerOutput (v : float) (s : PID) : PID :=
  let 'mkPID a b c d e f g h i j k l _ n o p q r t u w x y := s in
  mkPID a b c d e f g h i j k l v n o p q r t u w x y.
Definition set_inMin (v : float) (s : PID) : PID :=
  let 'mkPID a b c d e f g h i j k l m _ o p q r t u w x y := s in
  mkPID a b c d e f g h i j k l m v o p q r t u w x y.
Definition set_inMax (v : float) (s : PID) : PID :=
  let 'mkPID a b c d e f g h i j k l m n _ p q r t u w x y := s in
  mkPID a b c d e f g h i j k l m n v p q r t u w x y.
Definition set_inSpan (v : float) (s : PID) : PID :=
  let 'mkPID a b c d e f g h i j k l m n o _ q r t u w x y := s in
  mkPID a b c d e f g h i j k l m n o v q r t u w x y.
Definition set_outMin (v : float) (s : PID) : PID :=
  let 'mkPID a b c d e f g h i j k l m n o p _ r t u w x y := s in
  mkPID a b c d e f g h i j k l m n o p v r t u w x y.
Definition set_outMax (v : float) (s : PID) : PID :=
  let 'mkPID a b c d e f g h i j k l m n o p q _ t u w x y := s in
  mkPID a b c d e f g h i j k l m n o p q v t u w x y.
Definition set_outSpan (v : float) (s : PID) : PID :=
  let 'mkPID a b c d e f g h i j k l m n o p q r _ u w x y := s in
  mkPID a b c d e f g h i j k l m n o p q r v u w x y.
Definition set_accError (v : float) (s : PID) : PID :=
  let 'mkPID a b c d e f g h i j k l m n o p q r t _ w x y := s in
  mkPID a b c d e f g h i j k l m n o p q r t v w x y.
Definition set_bias (v : float) (s : PID) : PID :=
  let 'mkPID a b c d e f g h i j k l m n o p q r t u _ x y := s in
  mkPID a b c d e f g h i j k l m n o p q r t u v x y.
Definition set_tSample (v : float) (s : PID) : PID :=
  let 'mkPID a b c d e f g h i j k l m n o p q r t u w _ y := s in
  mkPID a b c d e f g h i j k l m n o p q r t u w v y.
Definition set_realOutput (v : float) (s : PID) : PID :=
  let 'mkPID a b c d e f g h i j k l m n o p q r t u w x _ := s in
  mkPID a b c d e f g h i j k l m n o p q r t u w x v.

(** [void PID::setInputLimits(float inMin, float inMax)] *)
Definition setInputLimits (inMin inMax : float) (s : PID) : PID :=
  if inMin >=? inMax then s
  else
    let s := set_prevProcessVariable
               (_prevProcessVariable s * ((inMax - inMin) / _inSpan s)) s in
    let s := set_accError (_accError s * ((inMax - inMin) / _inSpan s)) s in
    let s := set_prevProcessVariable
               (constrain (_prevProcessVariable s) zero one) s in
    let s := set_inMin inMin s in
    let s := set_inMax inMax s in
    set_inSpan (inMax - inMin) s.

(** [void PID::setOutputLimits(float outMin, float outMax)] *)
Definition setOutputLimits (outMin outMax : float) (s : PID) : PID :=
  if outMin >=? outMax then s
  else
    let s := set_prevControllerOutput
               (_prevControllerOutput s * ((outMax - outMin) / _outSpan s)) s in
    let s := set_prevControllerOutput
               (constrain (_prevControllerOutput s) zero one) s in
    let s := set_outMin outMin s in
    let s := set_outMax outMax s in
    set_outSpan (outMax - outMin) s.

(** [void PID::setTunings(float Kc, float tauI, float tauD)].
    [(1.0 / tauI) * _tSample] is a [double] quotient and a [double]
    product, rounded to [float] by the assignment. *)
Definition setTunings (Kc tauI tauD : float) (s : PID) : PID :=
  if (Kc =? zero) || (tauI <? zero) || (tauD <? zero) then s
  else
    let s := set_pParam Kc s in
    let s := set_iParam tauI s in
    let s := set_dParam tauD s in
    let tempTauR :=
      if tauI =? zero then zero
      else to_float
             (SFmul 53 1024
                (SFdiv 53 1024 (to_double one) (to_double tauI))
                (to_double (_tSample s))) in
    let s :=
      if _inAuto s then
        if tempTauR =? zero then set_accError zero s
        else set_accError
               (_accError s * ((_Kc s * _tauR s) / (Kc * tempTauR))) s
      else s in
    let s := set_Kc Kc s in
    let s := set_tauR tempTauR s in
    set_tauD (tauD / _tSample s) s.

(** [void PID::reset(void)] *)
Definition reset (s : PID) : PID :=
  let scaledBias :=
    if _usingFeedForward s then (_bias s - _outMin s) / _outSpan s
    else (_realOutput s - _outMin s) / _outSpan s in
  let s := set_prevControllerOutput scaledBias s in
  let s := set_prevProcessVariable
             ((_processVariable s - _inMin s) / _inSpan s) s in
  set_accError zero s.

(** [void PID::setMode(int mode)] *)
Definition setMode (mode : Z) (s : PID) : PID :=
  let s := if negb (mode =? 0)%Z && negb (_inAuto s) then reset s else s in
  set_inAuto (negb (mode =? 0)%Z) s.

(** [void PID::setInterval(float interval)] *)
Definition setInterval (interval : float) (s : PID) : PID :=
  if interval >? zero then
    let s := set_tauR (_tauR s * (interval / _tSample s)) s in
    let s := set_accError (_accError s * (_tSample s / interval)) s in
    let s := set_tauD (_tauD s * (interval / _tSample s)) s in
    set_tSample interval s
  else s.

(** [void PID::setSetPoint(float sp)] *)
Definition setSetPoint (sp : float) (s : PID) : PID := set_setPoint sp s.

(** [float PID::getSetPoint()] *)
Definition getSetPoint (s : PID) : float := _setPoint s.

(** [void PID::setProcessValue(float pv)] *)
Definition setProcessValue (pv : float) (s : PID) : PID :=
  set_processVariable pv s.

(** [void PID::setBias(float bias)] *)
Definition setBias (bias : float) (s : PID) : PID :=
  let s := set_bias bias s in
  set_usingFeedForward true s.

(** [float PID::compute()]: the state after the call and the value
    returned. *)
Definition compute (s : PID) : PID * float :=
  let scaledPV := (_processVariable s - _inMin s) / _inSpan s in
  let scaledPV := constrain scaledPV zero one in
  let scaledSP := (_setPoint s - _inMin s) / _inSpan s in
  let scaledSP := constrain scaledSP zero one in
  let error := scaledSP - scaledPV in
  let s :=
    if negb ((_prevControllerOutput s >=? one) && (error >? zero))
       && negb ((_prevControllerOutput s <=? zero) && (error <? zero))
    then set_accError (_accError s + error) s
    else s in
  let dMeas := (scaledPV - _prevProcessVariable s) / _tSample s in
  let scaledBias :=
    if _usingFeedForward s then (_bias s - _outMin s) / _outSpan s
    else zero in
  let s := set_controllerOutput
             (scaledBias
              + _Kc s * (error + (_tauR s * _accError s) - (_tauD s * dMeas)))
             s in
  let s := set_controllerOutput (constrain (_controllerOutput s) zero one) s in
  let s := set_prevControllerOutput (_controllerOutput s) s in
  let s := set_prevProcessVariable scaledPV s in
  (s, (_controllerOutput s * _outSpan s) + _outMin s).

(** [PID::PID(float Kc, float tauI, float tauD, float interval)], from
    the object's storage as it happens to be. *)
Definition PID_ctor (raw : PID) (Kc tauI tauD interval : float) : PID :=
  let s := set_usingFeedForward false raw in
  let s := set_inAuto false s in
  let s := setInputLimits zero (lit 33 10) s in
  let s := setOutputLimits zero (lit 33 10) s in
  let s := set_tSample interval s in
  let s := setTunings Kc tauI tauD s in
  let s := set_setPoint zero s in
  let s := set_processVariable zero s in
  let s := set_prevProcessVariable zero s in
  let s := set_controllerOutput zero s in
  let s := set_prevControllerOutput zero s in
  let s := set_accError zero s in
  let s := set_bias zero s in
  set_realOutput zero s.

(** One call of a public method, and runs of calls. *)
Inductive op : Type :=
| OpSetInputLimits (inMin inMax : float)
| OpSetOutputLimits (outMin outMax : float)
| OpSetTunings (Kc tauI tauD : float)
| OpReset
| OpSetMode (mode : Z)
| OpSetInterval (interval : float)
| OpSetSetPoint (sp : float)
| OpSetProcessValue (pv : float)
| OpSetBias (bias : float)
| OpCompute.

Definition run (o : op) (s : PID) : PID :=
  match o with
  | OpSetInputLimits inMin inMax => setInputLimits inMin inMax s
  | OpSetOutputLimits outMin outMax => setOutputLimits outMin outMax s
  | OpSetTunings Kc tauI tauD => setTunings Kc tauI tauD s
  | OpReset => reset s
  | OpSetMode mode => setMode mode s
  | OpSetInterval interval => setInterval interval s
  | OpSetSetPoint sp => setSetPoint sp s
  | OpSetProcessValue pv => setProcessValue pv s
  | OpSetBias bias => setBias bias s
  | OpCompute => fst (compute s)
  end.

Inductive reachable : PID -> Prop :=
| reach_ctor (raw : PID) (Kc tauI tauD interval : float) :
    reachable (PID_ctor raw Kc tauI tauD interval)
| reach_step (o : op) (s : PID) :
    reachable s -> reachable (run o s).

(** The calls that go through [reset]. *)
Definition resets (o : op) (s : PID) : bool :=
  match o with
  | OpReset => true
  | OpSetMode mode => negb (mode =? 0)%Z && negb (_inAuto s)
  | _ => false
  end.

(** What [constrain(value, 0.0, 1.0)] guarantees of its result: it is
    neither below 0 nor above 1 under the comparisons of the source.  A
    NaN compares false both times and passes. *)
Definition clamped (x : float) : Prop :=
  (x <? zero) = false /\ (x >? one) = false.

(** The rational a finite [float] stands for. *)
Definition value (x : float) : Q :=
  match x with
  | S754_finite s m e =>
      let v := match e with
               | Z0 => inject_Z (Zpos m)
               | Zpos p => inject_Z (Zpos m * 2 ^ Zpos p)
               | Zneg p => Qmake (Zpos m) (2 ^ p)
               end in
      if s then Qopp v else v
  | _ => 0%Q
  end.

(** A storage content to start concrete runs from. *)
Definition raw0 : PID :=
  mkPID true true one one one one one one one one one one one one one
        one one one one one one one one.

(** The scenario of the specification: [PID(2.0, 5.0, 1.0, 1.0)],
    [setSetPoint(1.65)], [setProcessValue(0.0)], [setMode(AUTO_MODE)]. *)
Definition scenario (raw : PID) : PID :=
  setMode 1
    (setProcessValue zero
       (setSetPoint (lit 165 100)
          (PID_ctor raw (lit 2 1) (lit 5 1) (lit 1 1) (lit 1 1)))).

(** A controller constructed with a sample interval of zero:
    [PID(2.0, 5.0, 1.0, 0.0)]. *)
Definition zero_interval (raw : PID) : PID :=
  PID_ctor raw (lit 2 1) (lit 5 1) (lit 1 1) zero.

(** The scenario with the output range [0.7, 1.9]:
    [PID(2.0, 5.0, 1.0, 1.0)], [setOutputLimits(0.7, 1.9)],
    [setSetPoint(1.65)], [setProcessValue(0.0)], [setMode(AUTO_MODE)]. *)
Definition narrow_output (raw : PID) : PID :=
  setMode 1
    (setProcessValue zero
       (setSetPoint (lit 165 100)
          (setOutputLimits (lit 7 10) (lit 19 10)
             (PID_ctor raw (lit 2 1) (lit 5 1) (lit 1 1) (lit 1 1))))).

End Binary32.

(** * Properties *)

(** ** Reading the boolean tests *)

Lemma Qltb_lt (x y : Q) : Qltb x y = true <-> x < y.
Proof.
  unfold Qltb. rewrite negb_true_iff, <- not_true_iff_false, Qle_bool_iff.
  split; [apply Qnot_le_lt | apply Qlt_not_le].
Qed.

Lemma Qltb_ge (x y : Q) : Qltb x y = false <-> y <= x.
Proof. unfold Qltb. rewrite negb_false_iff. apply Qle_bool_iff. Qed.

Lemma Qgtb_gt (x y : Q) : Qgtb x y = true <-> y < x.
Proof. apply Qltb_lt. Qed.

Lemma Qgtb_le (x y : Q) : Qgtb x y = false <-> x <= y.
Proof. apply Qltb_ge. Qed.

Lemma Qleb_le (x y : Q) : Qleb x y = true <-> x <= y.
Proof. apply Qle_bool_iff. Qed.

Lemma Qleb_gt (x y : Q) : Qleb x y = false <-> y < x.
Proof.
  unfold Qleb. rewrite <- not_true_iff_false, Qle_bool_iff.
  split; [apply Qnot_le_lt | apply Qlt_not_le].
Qed.

Lemma Qgeb_ge (x y : Q) : Qgeb x y = true <-> y <= x.
Proof. apply Qle_bool_iff. Qed.

Lemma Qgeb_lt (x y : Q) : Qgeb x y = false <-> x < y.
Proof. apply Qleb_gt. Qed.

Lemma Qeq_bool_false_iff (x y : Q) : Qeq_bool x y = false <-> ~ x == y.
Proof. rewrite <- not_true_iff_false, Qeq_bool_iff. reflexivity. Qed.

(** Turn every boolean test among the hypotheses into the comparison it
    decides. *)
Ltac tests_to_prop :=
  repeat match goal with
  | H : _ && _ = true |- _ => apply andb_true_iff in H; destruct H
  | H : _ || _ = false |- _ => apply orb_false_iff in H; destruct H
  | H : negb _ = true |- _ => apply negb_true_iff in H
  | H : negb _ = false |- _ => apply negb_false_iff in H
  | H : Qltb _ _ = true |- _ => apply Qltb_lt in H
  | H : Qltb _ _ = false |- _ => apply Qltb_ge in H
  | H : Qgtb _ _ = true |- _ => apply Qgtb_gt in H
  | H : Qgtb _ _ = false |- _ => apply Qgtb_le in H
  | H : Qleb _ _ = true |- _ => apply Qleb_le in H
  | H : Qleb _ _ = false |- _ => apply Qleb_gt in H
  | H : Qgeb _ _ = true |- _ => apply Qgeb_ge in H
  | H : Qgeb _ _ = false |- _ => apply Qgeb_lt in H
  | H : Qeq_bool _ _ = true |- _ => apply Qeq_bool_iff in H
  | H : Qeq_bool _ _ = false |- _ => apply Qeq_bool_false_iff in H
  end.

(** Run the assignments of the methods on a state given field by field. *)
Ltac assign :=
  cbv [set_usingFeedForward set_inAuto set_Kc set_tauR set_tauD set_pParam
       set_iParam set_dParam set_setPoint set_processVariable
       set_prevProcessVariable set_controllerOutput set_prevControllerOutput
       set_inMin set_inMax set_inSpan set_outMin set_outMax set_outSpan
       set_accError set_bias set_tSample set_realOutput
       _usingFeedForward _inAuto _Kc _tauR _tauD _pParam _iParam _dParam
       _setPoint _processVariable _prevProcessVariable _controllerOutput
       _prevControllerOutput _inMin _inMax _inSpan _outMin _outMax _outSpan
       _accError _bias _tSample _realOutput fst snd].

Ltac assign_in H :=
  cbv [set_usingFeedForward set_inAuto set_Kc set_tauR set_tauD set_pParam
       set_iParam set_dParam set_setPoint set_processVariable
       set_prevProcessVariable set_controllerOutput set_prevControllerOutput
       set_inMin set_inMax set_inSpan set_outMin set_outMax set_outSpan
       set_accError set_bias set_tSample set_realOutput
       _usingFeedForward _inAuto _Kc _tauR _tauD _pParam _iParam _dParam
       _setPoint _processVariable _prevProcessVariable _controllerOutput
       _prevControllerOutput _inMin _inMax _inSpan _outMin _outMax _outSpan
       _accError _bias _tSample _realOutput fst snd] in H.

(** ** [constrain] *)

Lemma constrain_bounds (v lo hi : Q) :
  lo <= hi -> lo <= constrain v lo hi /\ constrain v lo hi <= hi.
Proof.
  intros Hlh. unfold constrain.
  destruct (Qltb v lo) eqn:E1; [split; [apply Qle_refl | exact Hlh] |].
  destruct (Qgtb v hi) eqn:E2; [split; [exact Hlh | apply Qle_refl] |].
  tests_to_prop. split; assumption.
Qed.

Lemma constrain_in_unit (v : Q) : in_unit (constrain v 0 1).
Proof. apply constrain_bounds. discriminate. Qed.

(** ** The constructor *)

Lemma default_limits_accepted : Qgeb 0 3.3 = false.
Proof. reflexivity. Qed.

(** The constructed state, member by member.  Only the tuning members
    depend on whether [setTunings] accepted the arguments; when it did
    not they keep what the storage held. *)
Lemma PID_ctor_members (raw : PID) (Kc tauI tauD interval : Q) :
  exists k tr td pp ip dp : Q,
    PID_ctor raw Kc tauI tauD interval =
    mkPID false false k tr td pp ip dp
          0 0 0 0 0 0 3.3 (3.3 - 0) 0 3.3 (3.3 - 0) 0 0 interval 0.
Proof.
  destruct raw.
  unfold PID_ctor, setInputLimits, setOutputLimits, setTunings.
  rewrite default_limits_accepted. assign.
  destruct (Qeq_bool Kc 0 || Qltb tauI 0 || Qltb tauD 0);
    repeat eexists.
Qed.

(** C10.  Whatever the arguments (and whatever the object's storage held),
    a freshly constructed controller is in manual mode with feed-forward
    disabled, has input limits [0, 3.3] and output limits [0, 3.3], has
    setpoint, process variable, previous scaled process variable,
    controller output, previous controller output, accumulated error,
    bias and last real output all zero, and has the [interval] argument
    as its sample interval. *)
Theorem PID_ctor_initial_state (raw : PID) (Kc tauI tauD interval : Q) :
  let s := PID_ctor raw Kc tauI tauD interval in
  _inAuto s = false /\ _usingFeedForward s = false /\
  _inMin s = 0 /\ _inMax s = 3.3 /\ _inSpan s = 3.3 - 0 /\
  _outMin s = 0 /\ _outMax s = 3.3 /\ _outSpan s = 3.3 - 0 /\
  _setPoint s = 0 /\ _processVariable s = 0 /\
  _prevProcessVariable s = 0 /\
  _controllerOutput s = 0 /\ _prevControllerOutput s = 0 /\
  _accError s = 0 /\ _bias s = 0 /\ _realOutput s = 0 /\
  _tSample s = interval.
Proof.
  destruct raw. cbv zeta.
  unfold PID_ctor, setInputLimits, setOutputLimits, setTunings.
  rewrite default_limits_accepted. assign.
  destruct (Qeq_bool Kc 0 || Qltb tauI 0 || Qltb tauD 0);
    repeat split; reflexivity.
Qed.

(** ** Rejected configuration requests *)

(** C4.  An invalid configuration request leaves every field of the
    state as it was: [setInputLimits] and [setOutputLimits] with
    [min >= max], [setTunings] with [Kc == 0], [tauI < 0] or [tauD < 0],
    and [setInterval] with [interval <= 0].  The methods return nothing
    but the state, so no error reaches the caller. *)
Theorem invalid_requests_leave_state (s : PID) :
  (forall inMin inMax, inMax <= inMin -> setInputLimits inMin inMax s = s) /\
  (forall outMin outMax,
      outMax <= outMin -> setOutputLimits outMin outMax s = s) /\
  (forall Kc tauI tauD,
      Kc == 0 \/ tauI < 0 \/ tauD < 0 -> setTunings Kc tauI tauD s = s) /\
  (forall interval, interval <= 0 -> setInterval interval s = s).
Proof.
  repeat split.
  - intros inMin inMax H. unfold setInputLimits.
    apply Qgeb_ge in H. rewrite H. reflexivity.
  - intros outMin outMax H. unfold setOutputLimits.
    apply Qgeb_ge in H. rewrite H. reflexivity.
  - intros Kc tauI tauD H. unfold setTunings.
    destruct (Qeq_bool Kc 0 || Qltb tauI 0 || Qltb tauD 0) eqn:E;
      [reflexivity |].
    tests_to_prop. destruct H as [H | [H | H]]; [contradiction | lra | lra].
  - intros interval H. unfold setInterval.
    apply Qgtb_le in H. rewrite H. reflexivity.
Qed.

(** ** Mode switching *)

Lemma set_inAuto_same (s : PID) : set_inAuto (_inAuto s) s = s.
Proof. destruct s. reflexivity. Qed.

(** C9.  [setMode] with a nonzero mode on a controller in manual mode is
    [reset] followed by setting the automatic flag; with a nonzero mode
    on a controller already in automatic mode it changes nothing; and
    [setMode(0)] clears the automatic flag and changes no other field. *)
Theorem setMode_transitions (s : PID) (mode : Z) :
  (mode <> 0%Z -> _inAuto s = false ->
     setMode mode s = set_inAuto true (reset s)) /\
  (mode <> 0%Z -> _inAuto s = true -> setMode mode s = s) /\
  (_inAuto (setMode 0 s) = false /\ same_except_inAuto s (setMode 0 s)).
Proof.
  split; [| split; [| split]].
  - intros Hm Ha. unfold setMode. apply Z.eqb_neq in Hm.
    rewrite Hm, Ha. reflexivity.
  - intros Hm Ha. unfold setMode. apply Z.eqb_neq in Hm.
    rewrite Hm, Ha. cbn [negb andb]. rewrite <- Ha. apply set_inAuto_same.
  - destruct s. reflexivity.
  - destruct s. unfold same_except_inAuto. cbn. repeat split.
Qed.

(** ** Changing the sample interval *)

(** C7.  With sample interval [i > 0] and a new interval [i' > 0],
    [setInterval(i')] multiplies [_tauR] and [_tauD] by [i'/i],
    multiplies [_accError] by [i/i'] and stores [i']; from [i = 1] to
    [i' = 2] the accumulated error is halved and both time-based tunings
    are doubled. *)
Theorem setInterval_rescales (s : PID) (interval : Q) :
  0 < _tSample s -> 0 < interval ->
  let s' := setInterval interval s in
  _tauR s' == _tauR s * (interval / _tSample s) /\
  _tauD s' == _tauD s * (interval / _tSample s) /\
  _accError s' == _accError s * (_tSample s / interval) /\
  _tSample s' = interval /\
  (_tSample s == 1 -> interval == 2 ->
     _accError s' == _accError s * 0.5 /\
     _tauR s' == _tauR s * 2 /\
     _tauD s' == _tauD s * 2).
Proof.
  intros Hi Hi' s'. subst s'. unfold setInterval.
  apply Qgtb_gt in Hi'. rewrite Hi'. destruct s. assign. assign_in Hi.
  repeat split; try reflexivity.
  - rewrite H, H0. field.
  - rewrite H, H0. field.
  - rewrite H, H0. field.
Qed.

(** ** Changing the tunings *)

(** C8.  A valid [setTunings(Kc, tauI, tauD)] ([Kc != 0], [tauI >= 0],
    [tauD >= 0]) stores the raw parameters and the gain, sets [_tauR] to
    [(1/tauI) * tSample] when [tauI > 0] and to [0] when [tauI == 0], and
    sets [_tauD] to [tauD / tSample].  In automatic mode the accumulated
    error is multiplied by [(oldKc*oldTauR)/(newKc*newTauR)] when the
    new [_tauR] is nonzero and set to [0] when it is zero; in manual
    mode it is unchanged. *)
Theorem setTunings_accepted (s : PID) (Kc tauI tauD : Q) :
  ~ Kc == 0 -> 0 <= tauI -> 0 <= tauD ->
  let s' := setTunings Kc tauI tauD s in
  _pParam s' = Kc /\ _iParam s' = tauI /\ _dParam s' = tauD /\
  _Kc s' = Kc /\
  (0 < tauI -> _tauR s' = (1 / tauI) * _tSample s) /\
  (tauI == 0 -> _tauR s' = 0) /\
  _tauD s' = tauD / _tSample s /\
  (_inAuto s = true ->
     (~ _tauR s' == 0 ->
        _accError s' =
        _accError s * ((_Kc s * _tauR s) / (Kc * _tauR s'))) /\
     (_tauR s' == 0 -> _accError s' = 0)) /\
  (_inAuto s = false -> _accError s' = _accError s).
Proof.
  intros HK HI HD s'. subst s'. unfold setTunings.
  assert (E : Qeq_bool Kc 0 || Qltb tauI 0 || Qltb tauD 0 = false).
  { apply orb_false_iff; split; [apply orb_false_iff; split |].
    - apply Qeq_bool_false_iff, HK.
    - apply Qltb_ge, HI.
    - apply Qltb_ge, HD. }
  rewrite E. destruct s as [ff auto k tr td pp ip dp sp pv ppv co pco
                              imin imax isp omin omax osp acc b ts ro].
  assign.
  destruct (Qeq_bool tauI 0) eqn:EI; destruct auto; assign;
    repeat match goal with
           | |- context [if Qeq_bool ?x 0 then _ else _] =>
               let E := fresh "ER" in destruct (Qeq_bool x 0) eqn:E
           end;
    assign; try discriminate; tests_to_prop.
  all: repeat match goal with |- _ /\ _ => split end.
  all: try reflexivity; try discriminate; intros.
  all: try reflexivity; try contradiction.
  all: try (exfalso; lra).
  all: split; intros; try reflexivity; contradiction.
Qed.

(** ** One sample of the control law *)

(** Unfold a method on a state given field by field and split on the
    tests it branches on. *)
Ltac method_cases :=
  unfold setMode, setInputLimits, setOutputLimits, setTunings, reset,
         setInterval, setSetPoint, setProcessValue, setBias, compute;
  cbv zeta; assign;
  repeat (match goal with
          | |- context [if ?c then _ else _] =>
              lazymatch c with
              | context [if _ then _ else _] => fail
              | _ => destruct c eqn:?
              end
          end; assign).

Lemma compute_accError (s : PID) :
  _accError (fst (compute s)) =
  if negb (Qgeb (_prevControllerOutput s) 1 && Qgtb (error s) 0)
     && negb (Qleb (_prevControllerOutput s) 0 && Qltb (error s) 0)
  then _accError s + error s
  else _accError s.
Proof.
  destruct s. unfold error, scaledSP, scaledPV. method_cases; reflexivity.
Qed.

(** What [compute] stores and returns, in terms of the constrained
    output. *)
Lemma compute_stores (s : PID) :
  let s' := fst (compute s) in
  in_unit (_controllerOutput s') /\
  _prevControllerOutput s' = _controllerOutput s' /\
  _prevProcessVariable s' = scaledPV s /\
  snd (compute s) = _controllerOutput s' * _outSpan s + _outMin s.
Proof.
  destruct s. unfold scaledPV. method_cases;
    (split; [apply constrain_in_unit | repeat split]).
Qed.

(** The members [compute] does not assign. *)
Lemma compute_frame (s : PID) :
  let s' := fst (compute s) in
  _usingFeedForward s' = _usingFeedForward s /\ _inAuto s' = _inAuto s /\
  _inMin s' = _inMin s /\ _inMax s' = _inMax s /\ _inSpan s' = _inSpan s /\
  _outMin s' = _outMin s /\ _outMax s' = _outMax s /\
  _outSpan s' = _outSpan s /\
  _tSample s' = _tSample s /\ _realOutput s' = _realOutput s /\
  _bias s' = _bias s /\ _setPoint s' = _setPoint s /\
  _processVariable s' = _processVariable s.
Proof. destruct s. method_cases; repeat split. Qed.

(** C5.  [compute] adds the error of the sample (scaled setpoint minus
    scaled process variable) to the accumulated error unless the
    previous output is pegged at 1 with a positive error or pegged at 0
    with a negative error; in particular, with the previous output at or
    above 1 and a positive error the accumulated error stays as it
    was. *)
Theorem compute_anti_windup (s : PID) :
  (~ pegged s -> _accError (fst (compute s)) = _accError s + error s) /\
  (pegged s -> _accError (fst (compute s)) = _accError s) /\
  (1 <= _prevControllerOutput s -> 0 < error s ->
     _accError (fst (compute s)) = _accError s).
Proof.
  assert (Hp : pegged s -> _accError (fst (compute s)) = _accError s).
  { intros Hp. rewrite compute_accError.
    destruct Hp as [[H1 H2] | [H1 H2]].
    - apply Qgeb_ge in H1. apply Qgtb_gt in H2. rewrite H1, H2. reflexivity.
    - apply Qleb_le in H1. apply Qltb_lt in H2. rewrite H1, H2.
      rewrite andb_false_r. reflexivity. }
  split; [| split].
  - intros Hn. rewrite compute_accError.
    destruct (Qgeb (_prevControllerOutput s) 1 && Qgtb (error s) 0) eqn:E1.
    + tests_to_prop. exfalso. apply Hn. left. split; assumption.
    + destruct (Qleb (_prevControllerOutput s) 0 && Qltb (error s) 0) eqn:E2.
      * tests_to_prop. exfalso. apply Hn. right. split; assumption.
      * reflexivity.
  - exact Hp.
  - intros H1 H2. apply Hp. left. split; assumption.
Qed.

(** ** The limits along a run *)

Lemma PID_ctor_limits_ok (raw : PID) (Kc tauI tauD interval : Q) :
  limits_ok (PID_ctor raw Kc tauI tauD interval).
Proof.
  destruct (PID_ctor_members raw Kc tauI tauD interval)
    as (k & tr & td & pp & ip & dp & ->).
  unfold limits_ok. assign. repeat split.
Qed.

Lemma run_limits_ok (o : op) (s : PID) :
  limits_ok s -> limits_ok (run o s).
Proof.
  unfold limits_ok. destruct s, o; unfold run; method_cases;
    intros (H1 & H2 & H3 & H4); tests_to_prop; repeat split; assumption.
Qed.

Lemma reachable_limits_ok (s : PID) : reachable s -> limits_ok s.
Proof.
  induction 1; [apply PID_ctor_limits_ok | apply run_limits_ok; assumption].
Qed.

(** In exact arithmetic the returned value is within the output range
    as soon as the range is nonempty and [_outSpan] is its width.  (Over
    binary32 the last two operations round, and NaN passes [constrain]:
    [Binary32Facts.compute_outside_output_range].) *)
Lemma compute_within_range (s : PID) :
  _outMin s <= _outMax s -> _outSpan s == _outMax s - _outMin s ->
  _outMin s <= snd (compute s) /\ snd (compute s) <= _outMax s.
Proof.
  intros Hle Hspan.
  destruct (compute_stores s) as ([Hc0 Hc1] & _ & _ & Hr).
  rewrite Hr, Hspan.
  set (c := _controllerOutput (fst (compute s))) in *.
  set (d := _outMax s - _outMin s) in *.
  assert (Hd : 0 <= d) by (unfold d; lra).
  assert (H0 : 0 <= c * d) by (apply Qmult_le_0_compat; assumption).
  assert (H1 : c * d <= 1 * d) by (apply Qmult_le_compat_r; assumption).
  unfold d in *. split; lra.
Qed.

(** ** The divisors along a run *)

Section Divisors.

(** [compute] divides by [_inSpan], [_tSample] and, with feed-forward,
    [_outSpan].  The spans are positive in every reachable state; the
    sample interval is whatever the constructor was given until
    [setInterval] accepts a positive one, and is never changed to
    zero. *)

Variables (raw : PID) (Kc tauI tauD interval : Q).
Hypothesis interval_nonzero : ~ interval == 0.

Lemma reachable_spans_positive (s : PID) :
  reachable s -> 0 < _inSpan s /\ 0 < _outSpan s.
Proof.
  intros Hr. destruct (reachable_limits_ok s Hr) as (H1 & H2 & H3 & H4).
  rewrite H2, H4. split; lra.
Qed.

Lemma run_tSample_nonzero (o : op) (s : PID) :
  ~ _tSample s == 0 -> ~ _tSample (run o s) == 0.
Proof.
  destruct s, o; unfold run; method_cases; intros H; tests_to_prop;
    try exact H.
  intros E. rewrite E in *. lra.
Qed.

Lemma runs_tSample_nonzero (os : list op) (s : PID) :
  ~ _tSample s == 0 -> ~ _tSample (runs os s) == 0.
Proof.
  revert s. induction os as [| o os IH]; intros s H; cbn [runs];
    [exact H | apply IH, run_tSample_nonzero, H].
Qed.

Lemma runs_reachable (os : list op) (s : PID) :
  reachable s -> reachable (runs os s).
Proof.
  revert s. induction os as [| o os IH]; intros s H; cbn [runs];
    [exact H | apply IH, reach_step, H].
Qed.

(** From a constructor call with a nonzero interval on, no method call
    leaves [compute] a zero divisor. *)
Lemma divisors_nonzero (os : list op) :
  let s := runs os (PID_ctor raw Kc tauI tauD interval) in
  0 < _inSpan s /\ 0 < _outSpan s /\ ~ _tSample s == 0.
Proof.
  intros s.
  destruct (reachable_spans_positive s) as [H1 H2];
    [apply runs_reachable, reach_ctor |].
  repeat split; try assumption.
  apply runs_tSample_nonzero.
  destruct (PID_ctor_members raw Kc tauI tauD interval)
    as (k & tr & td & pp & ip & dp & ->).
  exact interval_nonzero.
Qed.

End Divisors.

(** ** [reset] *)

(** What [reset] stores. *)
Lemma reset_stores (s : PID) :
  let s' := reset s in
  (_usingFeedForward s = true ->
     _prevControllerOutput s' = (_bias s - _outMin s) / _outSpan s) /\
  (_usingFeedForward s = false ->
     _prevControllerOutput s' = (_realOutput s - _outMin s) / _outSpan s) /\
  _prevProcessVariable s' = (_processVariable s - _inMin s) / _inSpan s /\
  _accError s' = 0.
Proof.
  destruct s as [ff auto k tr td pp ip dp sp pv ppv co pco
                  imin imax isp omin omax osp acc b ts ro].
  unfold reset. destruct ff; assign; repeat split; intros; congruence.
Qed.

(** ** The scenario: first sample after engaging automatic mode *)

Lemma scenario_reachable (raw : PID) : reachable (scenario raw).
Proof.
  exact (reach_step (OpSetMode AUTO_MODE) _
           (reach_step (OpSetProcessValue 0) _
              (reach_step (OpSetSetPoint 1.65) _
                 (reach_ctor raw 2 5 1 1)))).
Qed.

(** ** [reset] and the last output *)

(** No method assigns [_realOutput] after the constructor. *)
Lemma run_realOutput (o : op) (s : PID) :
  _realOutput (run o s) = _realOutput s.
Proof. destruct s, o; unfold run; method_cases; reflexivity. Qed.

Lemma reachable_realOutput (s : PID) : reachable s -> _realOutput s = 0.
Proof.
  induction 1 as [raw Kc tauI tauD interval | o s Hr IH].
  - destruct (PID_ctor_members raw Kc tauI tauD interval)
      as (k & tr & td & pp & ip & dp & ->).
    reflexivity.
  - rewrite run_realOutput. exact IH.
Qed.

(** Hence, without feed-forward, [reset] in a reachable state stores the
    scaled value of 0, whatever [compute] returned before. *)
Lemma reset_without_feed_forward (s : PID) :
  reachable s -> _usingFeedForward s = false ->
  _prevControllerOutput (reset s) = (0 - _outMin s) / _outSpan s.
Proof.
  intros Hr Hff. destruct (reset_stores s) as (_ & H & _).
  rewrite (H Hff), (reachable_realOutput s Hr). reflexivity.
Qed.

(** C2 at the scenario.  Feed-forward is disabled and [compute] has just
    returned [r = 3.3], whose scaled value [(r - outMin)/outSpan] is 1;
    [reset] then stores 0 as the previous controller output, since
    [_realOutput] still holds the constructor's 0.  The previous scaled
    process variable and the accumulated error are set as described. *)
Theorem reset_after_compute_at_scenario :
  let s := fst (compute (scenario raw0)) in
  let r := snd (compute (scenario raw0)) in
  _usingFeedForward s = false /\
  r == 3.3 /\
  (r - _outMin s) / _outSpan s == 1 /\
  _realOutput s == 0 /\
  _prevControllerOutput (reset s) == 0 /\
  ~ _prevControllerOutput (reset s) == (r - _outMin s) / _outSpan s /\
  _prevProcessVariable (reset s)
    == (_processVariable s - _inMin s) / _inSpan s /\
  _accError (reset s) == 0.
Proof. vm_compute. repeat split; discriminate. Qed.

(** ** The claim of C3 as stated fails *)

(** [reset] stores an unconstrained quotient: with the process value at
    6.6 on the default input range it stores 2. *)
Lemma reset_leaves_unit_interval :
  ~ (forall (s : PID) (o : op), reachable s -> scaled_in_unit (run o s)).
Proof.
  intros H.
  specialize (H (run (OpSetProcessValue 6.6) (PID_ctor raw0 2 5 1 1))
                OpReset
                (reach_step _ _ (reach_ctor raw0 2 5 1 1))).
  destruct H as ((_ & H) & _). vm_compute in H. apply H. reflexivity.
Qed.

(** The accumulated error is a running sum: with gain 1/10, no integral
    and no derivative action, setpoint at the top of the range and the
    process value at the bottom, every sample adds an error of 1. *)
Example accError_grows :
  let s0 := setMode AUTO_MODE (setSetPoint 3.3 (PID_ctor raw0 0.1 0 0 1)) in
  _accError (runs (cons OpCompute (cons OpCompute nil)) s0) == 2.
Proof. vm_compute. reflexivity. Qed.

(** ** The theorems at concrete controllers *)

(** C4 on the scenario's controller: an empty input range, a reversed
    output range, a zero gain, a negative integral time, a negative
    derivative time and a zero interval are all discarded. *)
Lemma invalid_requests_leave_state_witness :
  setInputLimits 2 2 (scenario raw0) = scenario raw0 /\
  setOutputLimits 5 1 (scenario raw0) = scenario raw0 /\
  setTunings 0 5 1 (scenario raw0) = scenario raw0 /\
  setTunings 2 (-1) 1 (scenario raw0) = scenario raw0 /\
  setTunings 2 5 (-1) (scenario raw0) = scenario raw0 /\
  setInterval 0 (scenario raw0) = scenario raw0.
Proof.
  destruct (invalid_requests_leave_state (scenario raw0))
    as (H1 & H2 & H3 & H4).
  assert (L1 : 2 <= 2) by discriminate.
  assert (L2 : 1 <= 5) by discriminate.
  assert (L3 : 0 == 0) by reflexivity.
  assert (L4 : -1 < 0) by reflexivity.
  assert (L5 : 0 <= 0) by discriminate.
  exact (conj (H1 2 2 L1) (conj (H2 5 1 L2)
           (conj (H3 0 5 1 (or_introl L3))
              (conj (H3 2 (-1) 1 (or_intror (or_introl L4)))
                 (conj (H3 2 5 (-1) (or_intror (or_intror L4)))
                    (H4 0 L5)))))).
Defined.

(** C5 at the second sample of the scenario: the first sample left the
    previous output at 1, the error is still 0.5, and the accumulated
    error stays at 0.5. *)
Lemma compute_anti_windup_witness :
  let s := fst (compute (scenario raw0)) in
  1 <= _prevControllerOutput s /\ 0 < error s /\ pegged s /\
  _accError (fst (compute s)) = _accError s.
Proof.
  cbv zeta.
  assert (H1 : 1 <= _prevControllerOutput (fst (compute (scenario raw0))))
    by (vm_compute; discriminate).
  assert (H2 : 0 < error (fst (compute (scenario raw0))))
    by (vm_compute; reflexivity).
  destruct (compute_anti_windup (fst (compute (scenario raw0))))
    as (_ & _ & H).
  exact (conj H1 (conj H2 (conj (or_introl (conj H1 H2)) (H H1 H2)))).
Defined.

(** C7 on the scenario's controller after one sample: interval 1 to
    interval 2. *)
Lemma setInterval_rescales_witness :
  let s := fst (compute (scenario raw0)) in
  let s' := setInterval 2 s in
  0 < _tSample s /\ _tSample s == 1 /\
  _accError s == 0.5 /\ _accError s' == 0.25 /\
  _accError s' == _accError s * 0.5 /\
  _tauR s' == _tauR s * 2 /\
  _tauD s' == _tauD s * 2 /\
  _tSample s' = 2.
Proof.
  cbv zeta.
  assert (Hi : 0 < _tSample (fst (compute (scenario raw0))))
    by (vm_compute; reflexivity).
  assert (Hi' : 0 < 2) by reflexivity.
  assert (H1 : _tSample (fst (compute (scenario raw0))) == 1)
    by (vm_compute; reflexivity).
  destruct (setInterval_rescales (fst (compute (scenario raw0))) 2 Hi Hi')
    as (_ & _ & _ & Ht & Hs).
  destruct (Hs H1 (Qeq_refl 2)) as (Ha & Hr & Hd).
  assert (Hacc : _accError (fst (compute (scenario raw0))) == 0.5)
    by (vm_compute; reflexivity).
  assert (Hacc' : _accError (setInterval 2 (fst (compute (scenario raw0))))
                  == 0.25).
  { rewrite Ha, Hacc. reflexivity. }
  exact (conj Hi (conj H1 (conj Hacc (conj Hacc'
           (conj Ha (conj Hr (conj Hd Ht))))))).
Defined.

(** C8 on the scenario's controller after one sample, in automatic
    mode: from [(2, 5, 1)] to [(4, 10, 2)] the accumulated error 0.5 is
    multiplied by [(2 * 1/5) / (4 * 1/10) = 1]. *)
Lemma setTunings_accepted_witness :
  let s := fst (compute (scenario raw0)) in
  let s' := setTunings 4 10 2 s in
  ~ 4 == 0 /\ 0 <= 10 /\ 0 <= 2 /\ _inAuto s = true /\
  _Kc s' = 4 /\
  _tauR s' = (1 / 10) * _tSample s /\
  _tauD s' = 2 / _tSample s /\
  _accError s' = _accError s * ((_Kc s * _tauR s) / (4 * _tauR s')).
Proof.
  cbv zeta.
  assert (HK : ~ 4 == 0) by discriminate.
  assert (HI : 0 <= 10) by discriminate.
  assert (HD : 0 <= 2) by discriminate.
  assert (HA : _inAuto (fst (compute (scenario raw0))) = true)
    by reflexivity.
  destruct (setTunings_accepted (fst (compute (scenario raw0))) 4 10 2
              HK HI HD)
    as (_ & _ & _ & Hk & Hr & _ & Hd & Ha & _).
  assert (HR : 0 < 10) by reflexivity.
  assert (HN : ~ _tauR (setTunings 4 10 2 (fst (compute (scenario raw0))))
                 == 0)
    by (vm_compute; discriminate).
  exact (conj HK (conj HI (conj HD (conj HA (conj Hk (conj (Hr HR)
           (conj Hd (proj1 (Ha HA) HN)))))))).
Defined.

(** C9 on a fresh controller (manual mode) and on the scenario's
    controller (automatic mode). *)
Lemma setMode_transitions_witness :
  AUTO_MODE <> 0%Z /\
  _inAuto (PID_ctor raw0 2 5 1 1) = false /\
  setMode AUTO_MODE (PID_ctor raw0 2 5 1 1)
    = set_inAuto true (reset (PID_ctor raw0 2 5 1 1)) /\
  _inAuto (scenario raw0) = true /\
  setMode AUTO_MODE (scenario raw0) = scenario raw0 /\
  _inAuto (setMode MANUAL_MODE (scenario raw0)) = false.
Proof.
  assert (Hm : AUTO_MODE <> 0%Z) by discriminate.
  assert (H0 : _inAuto (PID_ctor raw0 2 5 1 1) = false) by reflexivity.
  assert (H1 : _inAuto (scenario raw0) = true) by reflexivity.
  destruct (setMode_transitions (PID_ctor raw0 2 5 1 1) AUTO_MODE)
    as (Ha & _ & _).
  destruct (setMode_transitions (scenario raw0) AUTO_MODE)
    as (_ & Hb & _).
  destruct (setMode_transitions (scenario raw0) 0) as (_ & _ & Hc & _).
  exact (conj Hm (conj H0 (conj (Ha Hm H0) (conj H1 (conj (Hb Hm H1) Hc))))).
Defined.

(** * Further properties of the controller *)

(** ** [constrain] *)

Lemma constrain_Qeq (v v' lo hi : Q) :
  v == v' -> constrain v lo hi == constrain v' lo hi.
Proof.
  intros H. unfold constrain, Qgtb, Qltb.
  rewrite <- (Qleb_comp lo lo (Qeq_refl lo) v v' H).
  rewrite <- (Qleb_comp v v' H hi hi (Qeq_refl hi)).
  destruct (Qle_bool lo v); cbn [negb]; [| reflexivity].
  destruct (Qle_bool v hi); cbn [negb]; [exact H | reflexivity].
Qed.

Lemma constrain_inside (v lo hi : Q) :
  lo <= v -> v <= hi -> constrain v lo hi = v.
Proof.
  intros H1 H2. unfold constrain.
  destruct (Qltb v lo) eqn:E1; tests_to_prop; [lra |].
  destruct (Qgtb v hi) eqn:E2; tests_to_prop; [lra | reflexivity].
Qed.


(** With the limits the wrong way round [constrain] returns one of the
    two limits, whatever the value. *)
Lemma constrain_reversed (v lo hi : Q) :
  hi < lo -> constrain v lo hi = lo \/ constrain v lo hi = hi.
Proof.
  intros H. unfold constrain.
  destruct (Qltb v lo) eqn:E1; [left; reflexivity |].
  destruct (Qgtb v hi) eqn:E2; [right; reflexivity |].
  tests_to_prop. lra.
Qed.

(** ** [compute], piece by piece *)


(** X2.  [compute] does not look at the mode flag: in manual and in
    automatic mode it makes the same assignments and returns the same
    value. *)
Theorem compute_ignores_mode (b : bool) (s : PID) :
  compute (set_inAuto b s)
  = (set_inAuto b (fst (compute s)), snd (compute s)).
Proof. destruct s. method_cases; reflexivity. Qed.

(** X3.  [compute] assigns the accumulated error, the controller output,
    the previous controller output and the previous process variable,
    and nothing else: flags, tunings, raw parameters, setpoint, process
    value, limits, spans, bias, sample interval and [_realOutput] are
    as before the call. *)
Theorem compute_assigns_only (s : PID) :
  let s' := fst (compute s) in
  _usingFeedForward s' = _usingFeedForward s /\ _inAuto s' = _inAuto s /\
  _Kc s' = _Kc s /\ _tauR s' = _tauR s /\ _tauD s' = _tauD s /\
  _pParam s' = _pParam s /\ _iParam s' = _iParam s /\
  _dParam s' = _dParam s /\
  _setPoint s' = _setPoint s /\
  _processVariable s' = _processVariable s /\
  _inMin s' = _inMin s /\ _inMax s' = _inMax s /\ _inSpan s' = _inSpan s /\
  _outMin s' = _outMin s /\ _outMax s' = _outMax s /\
  _outSpan s' = _outSpan s /\
  _bias s' = _bias s /\ _tSample s' = _tSample s /\
  _realOutput s' = _realOutput s.
Proof. destruct s. method_cases; repeat split. Qed.




(** ** Flags and accessors along a run *)

Lemma run_usingFeedForward (o : op) (s : PID) :
  _usingFeedForward s = true -> _usingFeedForward (run o s) = true.
Proof.
  destruct s, o; unfold run; method_cases; intros H;
    first [exact H | reflexivity].
Qed.

(** X7.  Feed-forward, once enabled by [setBias], stays enabled: no
    sequence of method calls clears the flag. *)
Theorem feed_forward_stays_enabled (bias : Q) (os : list op) (s : PID) :
  _usingFeedForward (runs os (setBias bias s)) = true.
Proof.
  assert (H : _usingFeedForward (setBias bias s) = true)
    by (destruct s; reflexivity).
  revert H. generalize (setBias bias s). clear s.
  induction os as [| o os IH]; intros s H; cbn [runs];
    [exact H | apply IH, run_usingFeedForward, H].
Qed.

Lemma run_setPoint (o : op) (s : PID) :
  assigns_setPoint o = false -> _setPoint (run o s) = _setPoint s.
Proof.
  destruct s, o; unfold run, assigns_setPoint; method_cases; intros H;
    first [reflexivity | discriminate].
Qed.

(** X8.  [getSetPoint] returns the value of the last [setSetPoint]:
    whatever other methods are called in between, none of them assigns
    the setpoint. *)
Theorem getSetPoint_after_setSetPoint (sp : Q) (os : list op) (s : PID) :
  List.forallb (fun o => negb (assigns_setPoint o)) os = true ->
  getSetPoint (runs os (setSetPoint sp s)) = sp.
Proof.
  assert (H : getSetPoint (setSetPoint sp s) = sp)
    by (destruct s; reflexivity).
  revert H. generalize (setSetPoint sp s). clear s.
  induction os as [| o os IH]; intros s H Hos; cbn [runs];
    [exact H |].
  cbn [List.forallb] in Hos. apply andb_true_iff in Hos.
  destruct Hos as [Ho Hos]. apply negb_true_iff in Ho.
  apply IH; [| exact Hos].
  unfold getSetPoint in *. rewrite run_setPoint; assumption.
Qed.

Lemma run_tSample_positive (o : op) (s : PID) :
  0 < _tSample s -> 0 < _tSample (run o s).
Proof.
  destruct s, o; unfold run; method_cases; intros H; tests_to_prop;
    assumption.
Qed.

(** X9.  A positive sample interval stays positive: [setInterval] is the
    only method that assigns it, and only with a positive argument. *)
Theorem sample_interval_stays_positive (os : list op) (s : PID) :
  0 < _tSample s -> 0 < _tSample (runs os s).
Proof.
  revert s. induction os as [| o os IH]; intros s H; cbn [runs];
    [exact H | apply IH, run_tSample_positive, H].
Qed.

(** ** Mode switches and [reset] *)

(** X10.  [setMode] and [reset] are idempotent: a second call with the
    same argument changes nothing. *)
Theorem setMode_reset_idempotent (mode : Z) (s : PID) :
  setMode mode (setMode mode s) = setMode mode s /\
  reset (reset s) = reset s.
Proof.
  split.
  - destruct s as [ff auto k tr td pp ip dp sp pv ppv co pco
                    imin imax isp omin omax osp acc b ts ro].
    unfold setMode, reset.
    destruct (mode =? 0)%Z; destruct auto; destruct ff; reflexivity.
  - destruct s as [ff auto k tr td pp ip dp sp pv ppv co pco
                    imin imax isp omin omax osp acc b ts ro].
    unfold reset. destruct ff; reflexivity.
Qed.

(** X11.  With the process value inside the input range [reset] stores
    a previous scaled process variable in [0,1], and with feed-forward
    and the bias inside the output range a previous controller output
    in [0,1]. *)
Theorem reset_within_limits (s : PID) :
  limits_ok s ->
  (_inMin s <= _processVariable s -> _processVariable s <= _inMax s ->
     in_unit (_prevProcessVariable (reset s))) /\
  (_usingFeedForward s = true ->
     _outMin s <= _bias s -> _bias s <= _outMax s ->
     in_unit (_prevControllerOutput (reset s))).
Proof.
  intros (Hi & Hisp & Ho & Hosp).
  destruct (reset_stores s) as (Hff & _ & Hp & _). cbv zeta in *.
  split.
  - intros H0 H1. rewrite Hp, Hisp. split.
    + apply Qle_shift_div_l; lra.
    + apply Qle_shift_div_r; lra.
  - intros F H0 H1. rewrite (Hff F), Hosp. split.
    + apply Qle_shift_div_l; lra.
    + apply Qle_shift_div_r; lra.
Qed.

(** X12.  Bumpless engagement.  On a controller in manual mode,
    [setProcessValue(pv)], [setBias(bias)] and then [setMode] with a
    nonzero mode leave the controller in automatic mode with a cleared
    integral, the previous controller output at the scaled bias and the
    previous process variable at the scaled process value. *)
Theorem engage_picks_up_bias_and_process_value
        (pv bias : Q) (mode : Z) (s : PID) :
  _inAuto s = false -> mode <> 0%Z ->
  let s' := setMode mode (setBias bias (setProcessValue pv s)) in
  _inAuto s' = true /\ _usingFeedForward s' = true /\
  _accError s' = 0 /\
  _prevControllerOutput s' = (bias - _outMin s) / _outSpan s /\
  _prevProcessVariable s' = (pv - _inMin s) / _inSpan s.
Proof.
  intros Ha Hm. apply Z.eqb_neq in Hm.
  destruct s as [ff auto k tr td pp ip dp sp pv0 ppv co pco
                  imin imax isp omin omax osp acc b ts ro].
  cbn in Ha. subst auto.
  unfold setMode, setBias, setProcessValue, reset. cbv zeta. assign.
  rewrite Hm. cbn [negb andb]. assign. repeat split.
Qed.

(** ** The derivative term *)





(** ** The constructor and the tunings *)

Lemma setTunings_guard (Kc tauI tauD : Q) :
  ~ Kc == 0 -> 0 <= tauI -> 0 <= tauD ->
  Qeq_bool Kc 0 || Qltb tauI 0 || Qltb tauD 0 = false.
Proof.
  intros HK HI HD.
  apply orb_false_iff; split; [apply orb_false_iff; split |].
  - apply Qeq_bool_false_iff, HK.
  - apply Qltb_ge, HI.
  - apply Qltb_ge, HD.
Qed.

(** X19.  The constructor takes the tunings only if [setTunings] accepts
    them.  With [Kc != 0], [tauI >= 0] and [tauD >= 0] the gain, the raw
    parameters, the reset rate and the derivative tuning are derived
    from the arguments; otherwise all six members keep what the object's
    storage held, and nothing tells the caller. *)
Theorem PID_ctor_tunings (raw : PID) (Kc tauI tauD interval : Q) :
  let s := PID_ctor raw Kc tauI tauD interval in
  (~ Kc == 0 -> 0 <= tauI -> 0 <= tauD ->
     _Kc s = Kc /\ _pParam s = Kc /\ _iParam s = tauI /\ _dParam s = tauD /\
     _tauR s = (if Qeq_bool tauI 0 then 0 else (1 / tauI) * interval) /\
     _tauD s = tauD / interval) /\
  (Kc == 0 \/ tauI < 0 \/ tauD < 0 ->
     _Kc s = _Kc raw /\ _pParam s = _pParam raw /\
     _iParam s = _iParam raw /\ _dParam s = _dParam raw /\
     _tauR s = _tauR raw /\ _tauD s = _tauD raw).
Proof.
  destruct raw as [ff auto k tr td pp ip dp sp pv ppv co pco
                    imin imax isp omin omax osp acc b ts ro].
  cbv zeta.
  unfold PID_ctor, setInputLimits, setOutputLimits, setTunings.
  rewrite default_limits_accepted. assign.
  destruct (Qeq_bool Kc 0 || Qltb tauI 0 || Qltb tauD 0) eqn:E.
  - split.
    + intros HK HI HD.
      rewrite (setTunings_guard Kc tauI tauD HK HI HD) in E. discriminate.
    + intros _. repeat split.
  - split.
    + intros _ _ _. destruct (Qeq_bool tauI 0); repeat split.
    + intros H. tests_to_prop.
      destruct H as [H | [H | H]]; [contradiction | lra | lra].
Qed.

(** ** Limits *)

Lemma setInputLimits_accepted (inMin inMax : Q) (s : PID) :
  inMin < inMax ->
  setInputLimits inMin inMax s
  = set_inSpan (inMax - inMin)
      (set_inMax inMax
         (set_inMin inMin
            (set_prevProcessVariable
               (constrain
                  (_prevProcessVariable s * ((inMax - inMin) / _inSpan s))
                  0 1)
               (set_accError
                  (_accError s * ((inMax - inMin) / _inSpan s)) s)))).
Proof.
  intros H. apply Qgeb_lt in H. unfold setInputLimits. rewrite H.
  destruct s. reflexivity.
Qed.

Lemma setOutputLimits_accepted (outMin outMax : Q) (s : PID) :
  outMin < outMax ->
  setOutputLimits outMin outMax s
  = set_outSpan (outMax - outMin)
      (set_outMax outMax
         (set_outMin outMin
            (set_prevControllerOutput
               (constrain
                  (_prevControllerOutput s
                   * ((outMax - outMin) / _outSpan s)) 0 1) s))).
Proof.
  intros H. apply Qgeb_lt in H. unfold setOutputLimits. rewrite H.
  destruct s. reflexivity.
Qed.

(** X20.  Setting the limits a controller already has changes nothing:
    with the spans consistent with the limits and the previous values
    in [0,1], [setInputLimits(inMin, inMax)] and
    [setOutputLimits(outMin, outMax)] with the current limits leave
    limits and spans as they are and the rescaled previous values and
    the accumulated error equal to what they were. *)
Theorem setLimits_with_current_limits (s : PID) :
  limits_ok s ->
  in_unit (_prevProcessVariable s) -> in_unit (_prevControllerOutput s) ->
  let a := setInputLimits (_inMin s) (_inMax s) s in
  let b := setOutputLimits (_outMin s) (_outMax s) s in
  (_inMin a = _inMin s /\ _inMax a = _inMax s /\ _inSpan a = _inSpan s /\
   _prevProcessVariable a == _prevProcessVariable s /\
   _accError a == _accError s) /\
  (_outMin b = _outMin s /\ _outMax b = _outMax s /\
   _outSpan b = _outSpan s /\
   _prevControllerOutput b == _prevControllerOutput s /\
   _accError b = _accError s).
Proof.
  intros (Hi & Hisp & Ho & Hosp) [Hp0 Hp1] [Hc0 Hc1] a b. subst a b.
  rewrite (setInputLimits_accepted _ _ s Hi),
          (setOutputLimits_accepted _ _ s Ho).
  destruct s as [ff auto k tr td pp ip dp sp pv ppv co pco
                  imin imax isp omin omax osp acc b ts ro].
  assign_in Hi. assign_in Hisp. assign_in Ho. assign_in Hosp.
  assign_in Hp0. assign_in Hp1. assign_in Hc0. assign_in Hc1.
  assign. subst isp osp.
  assert (E1 : ppv * ((imax - imin) / (imax - imin)) == ppv)
    by (field; lra).
  assert (E2 : pco * ((omax - omin) / (omax - omin)) == pco)
    by (field; lra).
  split; repeat split; try reflexivity.
  - rewrite (constrain_Qeq _ _ 0 1 E1).
    rewrite (constrain_inside _ 0 1 Hp0 Hp1). reflexivity.
  - field. lra.
  - rewrite (constrain_Qeq _ _ 0 1 E2).
    rewrite (constrain_inside _ 0 1 Hc0 Hc1). reflexivity.
Qed.



(** ** The integral term *)



(** ** The further properties at concrete controllers *)



Lemma getSetPoint_after_setSetPoint_witness :
  getSetPoint
    (runs (cons OpCompute (cons (OpSetMode 1) (cons (OpSetBias 1) nil)))
          (setSetPoint 2 fresh)) = 2.
Proof.
  exact (getSetPoint_after_setSetPoint 2
           (cons OpCompute (cons (OpSetMode 1) (cons (OpSetBias 1) nil)))
           fresh eq_refl).
Defined.

Lemma sample_interval_stays_positive_witness :
  0 < _tSample fresh /\
  0 < _tSample
        (runs (cons (OpSetInterval 0)
                 (cons (OpSetInterval 2) (cons OpCompute nil))) fresh).
Proof.
  assert (H : 0 < _tSample fresh) by (vm_compute; reflexivity).
  exact (conj H (sample_interval_stays_positive _ fresh H)).
Defined.

Lemma reset_within_limits_witness :
  let s := setBias 1.1 (setProcessValue 1 fresh) in
  limits_ok s /\
  in_unit (_prevProcessVariable (reset s)) /\
  in_unit (_prevControllerOutput (reset s)).
Proof.
  cbv zeta.
  assert (L : limits_ok (setBias 1.1 (setProcessValue 1 fresh)))
    by (vm_compute; repeat split).
  assert (H0 : _inMin (setBias 1.1 (setProcessValue 1 fresh))
               <= _processVariable (setBias 1.1 (setProcessValue 1 fresh)))
    by (vm_compute; discriminate).
  assert (H1 : _processVariable (setBias 1.1 (setProcessValue 1 fresh))
               <= _inMax (setBias 1.1 (setProcessValue 1 fresh)))
    by (vm_compute; discriminate).
  assert (F : _usingFeedForward (setBias 1.1 (setProcessValue 1 fresh))
              = true) by reflexivity.
  assert (B0 : _outMin (setBias 1.1 (setProcessValue 1 fresh))
               <= _bias (setBias 1.1 (setProcessValue 1 fresh)))
    by (vm_compute; discriminate).
  assert (B1 : _bias (setBias 1.1 (setProcessValue 1 fresh))
               <= _outMax (setBias 1.1 (setProcessValue 1 fresh)))
    by (vm_compute; discriminate).
  destruct (reset_within_limits _ L) as (A & B).
  exact (conj L (conj (A H0 H1) (B F B0 B1))).
Defined.

Lemma engage_picks_up_bias_and_process_value_witness :
  _inAuto fresh = false /\
  _prevControllerOutput (setMode 1 (setBias 1.1 (setProcessValue 1 fresh)))
  = (1.1 - _outMin fresh) / _outSpan fresh /\
  _prevProcessVariable (setMode 1 (setBias 1.1 (setProcessValue 1 fresh)))
  = (1 - _inMin fresh) / _inSpan fresh.
Proof.
  assert (Ha : _inAuto fresh = false) by reflexivity.
  assert (Hm : 1%Z <> 0%Z) by discriminate.
  destruct (engage_picks_up_bias_and_process_value 1 1.1 1 fresh Ha Hm)
    as (_ & _ & _ & A & B).
  exact (conj Ha (conj A B)).
Defined.



(** Valid tunings are taken; with a zero gain the gain member keeps the
    storage's 7. *)
Lemma PID_ctor_tunings_witness :
  _Kc (PID_ctor raw0 2 5 1 1) = 2 /\
  _tauD (PID_ctor raw0 2 5 1 1) = 1 / 1 /\
  _Kc (PID_ctor raw0 0 5 1 1) = _Kc raw0 /\
  _Kc raw0 = 7.
Proof.
  assert (HK : ~ 2 == 0) by discriminate.
  assert (HI : 0 <= 5) by discriminate.
  assert (HD : 0 <= 1) by discriminate.
  assert (HZ : 0 == 0) by reflexivity.
  destruct (PID_ctor_tunings raw0 2 5 1 1) as (A & _).
  destruct (A HK HI HD) as (A1 & _ & _ & _ & _ & A2).
  destruct (PID_ctor_tunings raw0 0 5 1 1) as (_ & B).
  destruct (B (or_introl HZ)) as (B1 & _).
  exact (conj A1 (conj A2 (conj B1 eq_refl))).
Defined.

Lemma setLimits_with_current_limits_witness :
  limits_ok sampled /\
  in_unit (_prevProcessVariable sampled) /\
  in_unit (_prevControllerOutput sampled) /\
  _prevProcessVariable
    (setInputLimits (_inMin sampled) (_inMax sampled) sampled)
  == _prevProcessVariable sampled /\
  _prevControllerOutput
    (setOutputLimits (_outMin sampled) (_outMax sampled) sampled)
  == _prevControllerOutput sampled.
Proof.
  assert (L : limits_ok sampled) by (vm_compute; repeat split).
  assert (P : in_unit (_prevProcessVariable sampled))
    by (vm_compute; split; discriminate).
  assert (C : in_unit (_prevControllerOutput sampled))
    by (vm_compute; split; discriminate).
  destruct (setLimits_with_current_limits sampled L P C)
    as ((_ & _ & _ & A & _) & (_ & _ & _ & B & _)).
  exact (conj L (conj P (conj C (conj A B)))).
Defined.


(** * The controller over IEEE 754 arithmetic *)

Module Binary32Facts.

Import Binary32.
Local Open Scope f32_scope.

Ltac assign32 :=
  cbv [Binary32.set_usingFeedForward Binary32.set_inAuto Binary32.set_Kc
       Binary32.set_tauR Binary32.set_tauD Binary32.set_pParam
       Binary32.set_iParam Binary32.set_dParam Binary32.set_setPoint
       Binary32.set_processVariable Binary32.set_prevProcessVariable
       Binary32.set_controllerOutput Binary32.set_prevControllerOutput
       Binary32.set_inMin Binary32.set_inMax Binary32.set_inSpan
       Binary32.set_outMin Binary32.set_outMax Binary32.set_outSpan
       Binary32.set_accError Binary32.set_bias Binary32.set_tSample
       Binary32.set_realOutput
       Binary32._usingFeedForward Binary32._inAuto Binary32._Kc
       Binary32._tauR Binary32._tauD Binary32._pParam Binary32._iParam
       Binary32._dParam Binary32._setPoint Binary32._processVariable
       Binary32._prevProcessVariable Binary32._controllerOutput
       Binary32._prevControllerOutput Binary32._inMin Binary32._inMax
       Binary32._inSpan Binary32._outMin Binary32._outMax Binary32._outSpan
       Binary32._accError Binary32._bias Binary32._tSample
       Binary32._realOutput fst snd].

Ltac method_cases32 :=
  unfold Binary32.setMode, Binary32.setInputLimits, Binary32.setOutputLimits,
         Binary32.setTunings, Binary32.reset, Binary32.setInterval,
         Binary32.setSetPoint, Binary32.setProcessValue, Binary32.setBias,
         Binary32.compute;
  cbv zeta; assign32;
  repeat (match goal with
          | |- context [if ?c then _ else _] =>
              lazymatch c with
              | context [if _ then _ else _] => fail
              | _ => destruct c eqn:?
              end
          end; assign32).

(** ** [constrain] on floats *)

Lemma constrain_clamped (v : float) : clamped (constrain v zero one).
Proof.
  unfold clamped, constrain.
  destruct (v <? zero) eqn:E0; [split; reflexivity |].
  destruct (v >? one) eqn:E1; [split; reflexivity |].
  split; assumption.
Qed.

(** NaN passes [constrain], and counts as clamped. *)
Lemma constrain_nan : constrain S754_nan zero one = S754_nan.
Proof. reflexivity. Qed.

Lemma digits2_pos_size (m : positive) : digits2_pos m = Pos.size m.
Proof. induction m as [m IH | m IH |]; cbn; [rewrite IH .. |]; reflexivity. Qed.

Lemma valid_mantissa_bound (m : positive) (e : Z) :
  valid_binary 24 128 (S754_finite false m e) = true ->
  (Zpos m < 2 ^ 24)%Z.
Proof.
  cbn [valid_binary]. unfold bounded, canonical_mantissa, fexp, emin.
  rewrite digits2_pos_size. intros H.
  apply andb_true_iff in H. destruct H as [H _]. apply Z.eqb_eq in H.
  assert (Hs : (Zpos (Pos.size m) <= 24)%Z) by lia.
  pose proof (Pos.size_gt m) as Hg.
  assert (Hg' : (Zpos m < 2 ^ Zpos (Pos.size m))%Z).
  { rewrite <- (Pos2Z.inj_pow 2 (Pos.size m)). exact Hg. }
  assert (Hp : (2 ^ Zpos (Pos.size m) <= 2 ^ 24)%Z)
    by (apply Z.pow_le_mono_r; lia).
  lia.
Qed.

(** A clamped binary32 value is NaN or stands for a number in [0,1]. *)
Lemma clamped_value (x : float) :
  valid_binary 24 128 x = true -> clamped x ->
  x = S754_nan \/ (0 <= value x /\ value x <= 1)%Q.
Proof.
  intros Hv [H0 H1]. destruct x as [s | s | | s m e].
  - right. split; discriminate.
  - destruct s; discriminate.
  - left. reflexivity.
  - right. destruct s; [discriminate |].
    pose proof (valid_mantissa_bound m e Hv) as Hm.
    unfold SFltb, SFcompare, one in H1.
    destruct (Z.compare (-23) e) eqn:Ec; try discriminate.
    + apply Z.compare_eq in Ec. subst e.
      assert (Hle : (m <= 8388608)%positive).
      { unfold Pos.le. rewrite Pos.compare_cont_spec in H1.
        destruct (8388608 ?= m)%positive eqn:E; cbn in H1;
          try discriminate.
        - apply Pos.compare_eq in E. subst m. discriminate.
        - rewrite Pos.compare_antisym, E. discriminate. }
      unfold value, Qle. cbn [Qnum Qden Qopp]. split; [lia |].
      change (Zpos (2 ^ 23)) with 8388608%Z. lia.
    + apply Z.compare_gt_iff in Ec.
      destruct e as [| p | p]; try lia.
      unfold value, Qle. cbn [Qnum Qden]. split; [lia |].
      assert (Hp : (2 ^ 24 <= 2 ^ Zpos p)%Z)
        by (apply Z.pow_le_mono_r; lia).
      rewrite (Pos2Z.inj_pow 2 p). lia.
Qed.

(** ** What the methods store *)

Lemma compute_stores_clamped (s : PID) :
  let s' := fst (compute s) in
  clamped (_controllerOutput s') /\
  _prevControllerOutput s' = _controllerOutput s' /\
  clamped (_prevProcessVariable s') /\
  snd (compute s) = (_controllerOutput s' * _outSpan s) + _outMin s.
Proof.
  destruct s. method_cases32;
    (split; [apply constrain_clamped |
             split; [reflexivity |
                     split; [apply constrain_clamped | reflexivity]]]).
Qed.

Lemma run_controllerOutput_clamped (o : op) (s : PID) :
  clamped (_controllerOutput s) -> clamped (_controllerOutput (run o s)).
Proof.
  destruct o;
    try (destruct s; unfold run; method_cases32; intros H; exact H).
  intros _. apply (compute_stores_clamped s).
Qed.

Lemma PID_ctor_controllerOutput (raw : PID) (Kc tauI tauD interval : float) :
  _controllerOutput (PID_ctor raw Kc tauI tauD interval) = zero.
Proof.
  destruct raw. unfold PID_ctor. cbv zeta.
  generalize (setInputLimits zero (lit 33 10)); intros f1.
  generalize (setOutputLimits zero (lit 33 10)); intros f2.
  generalize (setTunings Kc tauI tauD); intros f3.
  match goal with
  | |- context [f3 ?x] => destruct (f3 x)
  end.
  reflexivity.
Qed.

Lemma reachable_controllerOutput_clamped (s : PID) :
  reachable s -> clamped (_controllerOutput s).
Proof.
  induction 1 as [raw Kc tauI tauD interval | o s Hr IH].
  - rewrite PID_ctor_controllerOutput. split; reflexivity.
  - apply run_controllerOutput_clamped, IH.
Qed.

Lemma run_prevProcessVariable_clamped (o : op) (s : PID) :
  resets o s = false ->
  clamped (_prevProcessVariable s) ->
  clamped (_prevProcessVariable (run o s)).
Proof.
  destruct s, o; unfold run, resets; method_cases32; intros Hn H;
    try discriminate; try exact H; apply constrain_clamped.
Qed.

Lemma run_prevControllerOutput_clamped (o : op) (s : PID) :
  resets o s = false ->
  clamped (_prevControllerOutput s) ->
  clamped (_prevControllerOutput (run o s)).
Proof.
  destruct s, o; unfold run, resets; method_cases32; intros Hn H;
    try discriminate; try exact H; apply constrain_clamped.
Qed.

Lemma setInputLimits_passed (inMin inMax : float) (s : PID) :
  (inMin >=? inMax) = false ->
  clamped (_prevProcessVariable (setInputLimits inMin inMax s)).
Proof.
  intros H. unfold setInputLimits. rewrite H.
  destruct s. assign32. apply constrain_clamped.
Qed.

Lemma setOutputLimits_passed (outMin outMax : float) (s : PID) :
  (outMin >=? outMax) = false ->
  clamped (_prevControllerOutput (setOutputLimits outMin outMax s)).
Proof.
  intros H. unfold setOutputLimits. rewrite H.
  destruct s. assign32. apply constrain_clamped.
Qed.

(** C3, as the code has it.  What the methods guarantee of the stored
    scaled quantities is what [constrain] guarantees: a clamped value,
    which is a number in [0,1] or NaN ([clamped_value]).  In every
    reachable state, and after any further call, the controller output
    is clamped.  After [compute] the previous scaled process variable
    and the previous controller output are clamped; after a
    [setInputLimits] that passes its guard the former is, after a
    [setOutputLimits] that passes its guard the latter; and every call
    that does not go through [reset] keeps each of the two clamped if it
    was.  ([reset] stores its quotients as they are, and no method
    constrains the accumulated error.) *)
Theorem scaled_quantities_clamped (s : PID) (o : op) :
  reachable s ->
  clamped (_controllerOutput s) /\
  clamped (_controllerOutput (run o s)) /\
  (o = OpCompute ->
     clamped (_prevProcessVariable (run o s)) /\
     clamped (_prevControllerOutput (run o s))) /\
  (forall inMin inMax, o = OpSetInputLimits inMin inMax ->
     (inMin >=? inMax) = false ->
     clamped (_prevProcessVariable (run o s))) /\
  (forall outMin outMax, o = OpSetOutputLimits outMin outMax ->
     (outMin >=? outMax) = false ->
     clamped (_prevControllerOutput (run o s))) /\
  (resets o s = false -> clamped (_prevProcessVariable s) ->
     clamped (_prevProcessVariable (run o s))) /\
  (resets o s = false -> clamped (_prevControllerOutput s) ->
     clamped (_prevControllerOutput (run o s))).
Proof.
  intros Hr.
  pose proof (reachable_controllerOutput_clamped s Hr) as Hc.
  split; [exact Hc |].
  split; [apply run_controllerOutput_clamped, Hc |].
  split; [| split; [| split; [| split]]].
  - intros ->. cbn [run].
    destruct (compute_stores_clamped s) as (Hco & Hp & Hv & _).
    rewrite Hp. split; [exact Hv | exact Hco].
  - intros inMin inMax -> H. apply setInputLimits_passed, H.
  - intros outMin outMax -> H. apply setOutputLimits_passed, H.
  - apply run_prevProcessVariable_clamped.
  - apply run_prevControllerOutput_clamped.
Qed.

(** [reset] stores its quotient as it is: with the process value at the
    [float] nearest to 6.6 on the default input range it stores 2, which
    is not clamped. *)
Lemma reset_stores_unclamped (raw : PID) :
  let s := reset (setProcessValue (lit 66 10)
                    (PID_ctor raw (lit 2 1) (lit 5 1) (lit 1 1) (lit 1 1))) in
  _prevProcessVariable s = S754_finite false 8388608 (-22) /\
  (_prevProcessVariable s >? one) = true.
Proof. destruct raw. vm_compute. split; reflexivity. Qed.

(** ** The scenario *)

(** C6.  For [PID(2.0, 5.0, 1.0, 1.0)] with the default limits, setpoint
    1.65, process value 0.0 and automatic mode, the first [compute]
    stores the scaled output 1 and returns the [float] 13841203 * 2^-22,
    which is the stored upper limit (the [float] nearest to 3.3): a
    value strictly greater than 0.0 and strictly less than 3.3, as a
    number and under the source's comparison with the literal [3.3]. *)
Theorem scenario_first_output (raw : PID) :
  let (s', r) := compute (scenario raw) in
  _controllerOutput s' = one /\
  r = S754_finite false 13841203 (-22) /\
  r = _outMax (scenario raw) /\
  (0 < value r)%Q /\ (value r < 3.3)%Q /\
  (to_double r >? dbl 0 1) = true /\ (to_double r <? dbl 33 10) = true.
Proof.
  destruct raw. vm_compute. repeat split.
Qed.

(** ** Outputs outside the output range *)

(** C1 at two controllers.  Constructed with a sample interval of zero,
    the controller has an infinite derivative tuning and [compute]
    divides zero by zero: it stores and returns NaN.  With the output
    range [0.7, 1.9] the stored span is 10066330 * 2^-23, and the
    saturated output 15938356 * 2^-23 is above the stored upper limit
    15938355 * 2^-23.  Both states are reachable. *)
Theorem compute_outside_output_range (raw : PID) :
  (reachable (zero_interval raw) /\
   _tauD (zero_interval raw) = S754_infinity false /\
   snd (compute (zero_interval raw)) = S754_nan /\
   _controllerOutput (fst (compute (zero_interval raw))) = S754_nan) /\
  (reachable (narrow_output raw) /\
   _outMin (narrow_output raw) = S754_finite false 11744051 (-24) /\
   _outMax (narrow_output raw) = S754_finite false 15938355 (-23) /\
   _outSpan (narrow_output raw) = S754_finite false 10066330 (-23) /\
   snd (compute (narrow_output raw)) = S754_finite false 15938356 (-23) /\
   (snd (compute (narrow_output raw)) >? _outMax (narrow_output raw))
   = true /\
   (value (_outMax (narrow_output raw))
    < value (snd (compute (narrow_output raw))))%Q).
Proof.
  split.
  - split.
    + unfold zero_interval. apply reach_ctor.
    + destruct raw. vm_compute. repeat split.
  - split.
    + unfold narrow_output.
      apply (reach_step (OpSetMode 1)).
      apply (reach_step (OpSetProcessValue zero)).
      apply (reach_step (OpSetSetPoint (lit 165 100))).
      apply (reach_step (OpSetOutputLimits (lit 7 10) (lit 19 10))).
      apply reach_ctor.
    + destruct raw. vm_compute. repeat split.
Qed.

(** C3 at the scenario's controller, for a call of [compute]. *)
Lemma scaled_quantities_clamped_witness :
  reachable (scenario raw0) /\
  resets OpCompute (scenario raw0) = false /\
  clamped (_prevProcessVariable (scenario raw0)) /\
  clamped (_prevControllerOutput (scenario raw0)) /\
  clamped (_controllerOutput (run OpCompute (scenario raw0))) /\
  clamped (_prevProcessVariable (run OpCompute (scenario raw0))) /\
  clamped (_prevControllerOutput (run OpCompute (scenario raw0))).
Proof.
  assert (Hr : reachable (scenario raw0)).
  { unfold scenario.
    apply (reach_step (OpSetMode 1)).
    apply (reach_step (OpSetProcessValue zero)).
    apply (reach_step (OpSetSetPoint (lit 165 100))).
    apply reach_ctor. }
  assert (Hn : resets OpCompute (scenario raw0) = false) by reflexivity.
  assert (Hp : clamped (_prevProcessVariable (scenario raw0)))
    by (vm_compute; split; reflexivity).
  assert (Hc : clamped (_prevControllerOutput (scenario raw0)))
    by (vm_compute; split; reflexivity).
  destruct (scaled_quantities_clamped (scenario raw0) OpCompute Hr)
    as (_ & H1 & _ & _ & _ & H2 & H3).
  exact (conj Hr (conj Hn (conj Hp (conj Hc
           (conj H1 (conj (H2 Hn Hp) (H3 Hn Hc))))))).
Defined.

End Binary32Facts.
